(** * MEFS MCP server: authentication session, storage adapter and tool envelope

    A shallow embedding of the TypeScript sources

    - [src/core/mefs/auth.ts]    (getChallenge, login, signMessage, authenticate)
    - [src/core/mefs/config.ts]  (cachedTokens, getAuthTokens, clearAuthTokens)
    - [src/core/mefs/client.ts]  (uploadFile, downloadFile)
    - [src/core/mefs/utils.ts]   (base64ToBytes)
    - [src/core/server/tools/upload.ts], [retrieve.ts] (the two tool handlers)

    Asynchronous functions are terms of a small free monad [Async] whose
    nodes are the effects the code performs: reading and writing the
    module-level [cachedTokens], calling [fetch], suspending at an [await],
    writing to the console, and throwing.  The monad is given two semantics:
    [run], one call executed to completion, and [advance]/[resume], several
    calls interleaved at their suspension points the way the event loop
    interleaves them. *)

From Stdlib Require Import String Ascii List ZArith NArith Bool Lia Arith.
From Stdlib Require Import DecimalString.
From Stdlib.Strings Require Import Byte.
Import ListNotations.

Local Open Scope list_scope.
Local Open Scope string_scope.

(** ** JavaScript values used by the sources *)

(** A JavaScript string is modelled as a Rocq [string]: a sequence of 8-bit
    code units.  A [Uint8Array] is a [list byte]. *)

Definition Bytes := list byte.

(** [s.startsWith(p)] *)
Fixpoint startsWith (s p : string) {struct p} : bool :=
  match p with
  | EmptyString => true
  | String a p' =>
      match s with
      | EmptyString => false
      | String b s' => (b =? a)%char && startsWith s' p'
      end
  end.

(** [s.slice(n)] for [0 <= n] *)
Fixpoint slice (n : nat) (s : string) : string :=
  match n, s with
  | O, _ => s
  | S n', String _ s' => slice n' s'
  | S _, EmptyString => EmptyString
  end.

(** Truthiness of an optional string: [undefined] and [''] are falsy. *)
Definition truthy (o : option string) : bool :=
  match o with
  | Some s => negb (s =? EmptyString)
  | None => false
  end.

(** Truthiness of an optional integer-valued number: [undefined] and [0]
    are falsy. *)
Definition truthy_number (o : option Z) : bool :=
  match o with
  | Some z => negb (z =? 0)%Z
  | None => false
  end.

(** Truthiness of an optional boolean. *)
Definition truthy_bool (o : option bool) : bool :=
  match o with
  | Some b => b
  | None => false
  end.

(** The decimal digits of an integer, behind a minus sign when it is
    negative. *)
Definition decimal (z : Z) : string :=
  NilZero.string_of_int (Z.to_int z).

(** Values handed to [JSON.stringify].  A property whose value is
    [undefined] is dropped by the serialiser, so objects keep it as
    [JUndefined] until then. *)
#[warnings="-register-all"]
Inductive JsValue : Type :=
| JUndefined
| JNull
| JBool (b : bool)
| JNumber (z : Z)
| JString (s : string)
| JObject (props : list (string * JsValue)).

(** [error.cause], as far as the handlers look at it: they test it for
    truthiness and, when it is truthy, read its [message] without looking
    at what it is.  [NoCause] is a cause that is absent or falsy;
    [CauseWith m] is a truthy cause whose [message] reads as [m]: a string
    for a cause that is an [Error], [undefined] for a cause without such a
    property (a string, a number, a plain object). *)
Inductive Cause : Type :=
| NoCause
| CauseWith (message : JsValue).

(** A value that can be thrown.  Every throw site of the sources throws an
    [Error] built by [new Error(message)], which has no cause; the platform
    throws [TypeError]s and [SyntaxError]s, which are [Error]s with another
    [name] and possibly a [cause].  The upload handler also tests for a
    [ZodError], which always carries at least one issue. *)
Inductive Thrown : Type :=
| ErrorObj (name message : string) (cause : Cause)
| ZodError (message : string) (first_issue : string) (more_issues : list string)
| NonError (shown : string).

Definition new_Error (message : string) : Thrown := ErrorObj "Error" message NoCause.

(** [error instanceof Error ? error.message : String(error)] *)
Definition message_or_String (e : Thrown) : string :=
  match e with
  | ErrorObj _ m _ => m
  | ZodError m _ _ => m
  | NonError v => v
  end.

Definition JString_or_undefined (o : option string) : JsValue :=
  match o with
  | Some s => JString s
  | None => JUndefined
  end.

(** ** Data model (auth.ts, client.ts) *)

Record AuthConfig := {
  apiBaseUrl : string;
  origin : string;
  address : option string;
  chainId : option Z;
  privateKey : option string
}.

(** [MefsConfig extends AuthConfig] with no further member. *)
Definition MefsConfig := AuthConfig.

Record LoginResponse := {
  lr_accessToken : string;
  lr_refreshToken : string;
  lr_newAccount : bool
}.

Record AuthTokens := {
  accessToken : string;
  refreshToken : string
}.

Record ApiConfig := {
  api_apiBaseUrl : string;
  api_accessToken : string
}.

Record UploadOptions := {
  opt_key : option string;
  opt_public : option bool;
  opt_user : option string
}.

Record UploadResult := { Mid : string }.

Record DownloadResult := {
  data : Bytes;
  filename : string;
  contentType : option string
}.

(** ** HTTP requests and responses as [fetch] sees them *)

Inductive Method := GET | POST.

(** A [URL] object, as far as the sources use one.  They make it from a
    string, set entries of its query and hand [url.toString()] to [fetch];
    they never read anything back.  [href] is the string the URL was made
    from: [new URL(s)] parses and normalises [s] (scheme, host, dot
    segments, fragment), which is the platform's work and is not modelled.
    [searchParams] is the list of the entries of its query, which starts as
    the entries the platform reads off [s].  The two fix the string that
    [fetch] receives. *)
Record URL := {
  href : string;
  searchParams : list (string * string)
}.

(** [url.searchParams.set(k, v)]: replace the value of [k], or append. *)
Fixpoint searchParams_set_list (k v : string) (ps : list (string * string))
  : list (string * string) :=
  match ps with
  | [] => [(k, v)]
  | (k', v') :: ps' =>
      if k' =? k then (k, v) :: filter (fun p => negb (fst p =? k)) ps'
      else (k', v') :: searchParams_set_list k v ps'
  end.

Definition searchParams_set (k v : string) (u : URL) : URL :=
  {| href := href u; searchParams := searchParams_set_list k v (searchParams u) |}.

(** One entry of a [FormData]: [append(name, blob, filename)] or
    [append(name, value)]. *)
Inductive FormEntry :=
| FileEntry (field : string) (content : Bytes) (blobType : string) (fileName : string)
| TextEntry (field : string) (value : string).

Definition entry_field (e : FormEntry) : string :=
  match e with
  | FileEntry f _ _ _ => f
  | TextEntry f _ => f
  end.

Inductive RequestBody :=
| NoBody
| TextBody (s : string)
| FormBody (entries : list FormEntry).

Record Request := {
  method : Method;
  url : URL;
  headers : list (string * string);
  body : RequestBody
}.

(** A [Response]: [headers.get] is keyed by the lower-case header name;
    [text()] and [arrayBuffer()] read the same body. *)
Record Response := {
  ok : bool;
  status : nat;
  statusText : string;
  headers_get : string -> option string;
  bodyBytes : Bytes
}.

Definition status_toString (n : nat) : string :=
  NilZero.string_of_uint (Nat.to_uint n).

Definition bodyText (r : Response) : string := string_of_list_byte (bodyBytes r).

(** ** The platform

    Library and runtime functions the sources call but do not define.  They
    are parameters of the development: every theorem holds for every
    platform, except where a hypothesis on it is written out. *)

Record Wallet := { wallet_privateKey : string }.

Class Runtime := {
  (** [new URL(s)] throws for a string that is not a URL *)
  URL_canParse : string -> bool;
  (** the entries of [new URL(s).searchParams] *)
  URL_searchParams : string -> list (string * string);
  (** [n.toString()] for an integer [n] beyond the safe integers *)
  Number_toString_large : Z -> string;
  (** [JSON.stringify] *)
  JSON_stringify : JsValue -> string;
  (** [await response.json() as LoginResponse] *)
  json_LoginResponse : string -> Thrown + LoginResponse;
  (** [await response.json() as UploadResult] *)
  json_UploadResult : string -> Thrown + UploadResult;
  (** [new ethers.Wallet(key)] *)
  ethers_Wallet : string -> Thrown + Wallet;
  (** [wallet.signMessage(message)] *)
  Wallet_signMessage : Wallet -> string -> Thrown + string;
  (** [base64.decode] of multiformats/bases/base64 *)
  multiformats_base64_decode : string -> Thrown + Bytes;
  (** [Buffer.from(s, 'base64')] *)
  Buffer_from_base64 : string -> Bytes;
  (** [buffer.toString('base64')] *)
  Buffer_toString_base64 : Bytes -> string
}.

(** [n.toString()] and [`${n}`] for an integer-valued number.  Up to [2^53]
    every integer is a number of its own and is printed with all its
    decimal digits.  Beyond, JavaScript prints the shortest digits that read
    back as the same number, and in exponent notation from [1e21]: that is
    the platform's. *)
Definition Number_toString {R : Runtime} (z : Z) : string :=
  if (Z.abs z <=? 9007199254740992)%Z then decimal z else Number_toString_large z.

(** ** The [Async] monad *)

Inductive Async (A : Type) : Type :=
| Ret (a : A)
| Throw (e : Thrown)
| ReadCache (k : option AuthTokens -> Async A)
| WriteCache (c : option AuthTokens) (k : Async A)
| Fetch (r : Request) (k : Thrown + Response -> Async A)
| Await (k : Async A)
| ConsoleError (line : string) (k : Async A).

Arguments Ret {A} a.
Arguments Throw {A} e.
Arguments ReadCache {A} k.
Arguments WriteCache {A} c k.
Arguments Fetch {A} r k.
Arguments Await {A} k.
Arguments ConsoleError {A} line k.

Fixpoint bind {A B : Type} (p : Async A) (f : A -> Async B) : Async B :=
  match p with
  | Ret a => f a
  | Throw e => Throw e
  | ReadCache k => ReadCache (fun c => bind (k c) f)
  | WriteCache c k => WriteCache c (bind k f)
  | Fetch r k => Fetch r (fun x => bind (k x) f)
  | Await k => Await (bind k f)
  | ConsoleError l k => ConsoleError l (bind k f)
  end.

Notation "x <- p ;; q" := (bind p (fun x => q))
  (at level 61, p at next level, right associativity).

(** [try { p } catch (error) { h error }] *)
Fixpoint try_catch {A : Type} (p : Async A) (h : Thrown -> Async A) : Async A :=
  match p with
  | Ret a => Ret a
  | Throw e => h e
  | ReadCache k => ReadCache (fun c => try_catch (k c) h)
  | WriteCache c k => WriteCache c (try_catch k h)
  | Fetch r k => Fetch r (fun x => try_catch (k x) h)
  | Await k => Await (try_catch k h)
  | ConsoleError l k => ConsoleError l (try_catch k h)
  end.

(** [await p]: the caller is suspended until the promise of [p] settles and
    is resumed, with the value or the exception, in a later turn. *)
Fixpoint await {A : Type} (p : Async A) : Async A :=
  match p with
  | Ret a => Await (Ret a)
  | Throw e => Await (Throw e)
  | ReadCache k => ReadCache (fun c => await (k c))
  | WriteCache c k => WriteCache c (await k)
  | Fetch r k => Fetch r (fun x => await (k x))
  | Await k => Await (await k)
  | ConsoleError l k => ConsoleError l (await k)
  end.

(** [fetch(url, init)]: resolves with a response or rejects. *)
Definition fetch (r : Request) : Async Response :=
  Fetch r (fun x => match x with inl e => Throw e | inr resp => Ret resp end).

Definition settle {A : Type} (x : Thrown + A) : Async A :=
  match x with
  | inl e => Throw e
  | inr a => Ret a
  end.

(** ** One call run to completion *)

Record World := {
  cachedTokens : option AuthTokens;
  calls : list Request;
  stderr : list string
}.

Definition set_cache (c : option AuthTokens) (w : World) : World :=
  {| cachedTokens := c; calls := calls w; stderr := stderr w |}.

Definition log_call (r : Request) (w : World) : World :=
  {| cachedTokens := cachedTokens w; calls := (calls w ++ [r])%list; stderr := stderr w |}.

Definition log_stderr (l : string) (w : World) : World :=
  {| cachedTokens := cachedTokens w; calls := calls w; stderr := (stderr w ++ [l])%list |}.

(** The service behind [fetch]: its answer to a request may depend on every
    request issued so far (the request itself is the last of them). *)
Definition Transport := list Request -> Request -> Thrown + Response.

Fixpoint run {A : Type} (net : Transport) (p : Async A) (w : World)
  : (Thrown + A) * World :=
  match p with
  | Ret a => (inr a, w)
  | Throw e => (inl e, w)
  | ReadCache k => run net (k (cachedTokens w)) w
  | WriteCache c k => run net k (set_cache c w)
  | Fetch r k => let w' := log_call r w in run net (k (net (calls w') r)) w'
  | Await k => run net k w
  | ConsoleError l k => run net k (log_stderr l w)
  end.

(** ** Regular expressions of the sources *)

(** [/^[0-9a-fA-F]+$/.test(s)] *)
Definition is_hex_digit (c : ascii) : bool :=
  let n := nat_of_ascii c in
  (((48 <=? n) && (n <=? 57)) || ((97 <=? n) && (n <=? 102))
   || ((65 <=? n) && (n <=? 70)))%nat.

Fixpoint all_hex (s : string) : bool :=
  match s with
  | EmptyString => true
  | String c s' => is_hex_digit c && all_hex s'
  end.

Definition test_hex (s : string) : bool :=
  negb (s =? EmptyString) && all_hex s.

(** [.] matches every code unit but a line terminator. *)
Definition is_line_terminator (c : ascii) : bool :=
  (c =? "010")%char || (c =? "013")%char.

(** [.*?pat] matched at the head of [s], the dots taking as little as they
    can: what is left of [s] behind the match. *)
Fixpoint after_lazy_dots (pat s : string) : option string :=
  if startsWith s pat then Some (slice (String.length pat) s)
  else match s with
       | EmptyString => None
       | String c s' => if is_line_terminator c then None else after_lazy_dots pat s'
       end.

(** [s.replace(/^data:.*?;base64,/, '')] *)
Definition strip_data_url (s : string) : string :=
  if startsWith s "data:" then
    match after_lazy_dots ";base64," (slice 5 s) with
    | Some rest => rest
    | None => s
    end
  else s.

Definition dquote : ascii := "034"%char.

(** The greedy character class of the filename pattern (one or more code
    units other than the double quote): the longest run of such code units
    at the head of [s]. *)
Fixpoint span_not_quote (s : string) : string :=
  match s with
  | EmptyString => EmptyString
  | String c s' => if (c =? dquote)%char then EmptyString else String c (span_not_quote s')
  end.

(** The pattern of [downloadFile] tried at the head of [s]: the literal
    [filename=], an optional double quote, the capture group (one or more
    code units other than the double quote), an optional double quote.
    The result is the capture group.  The optional quote is taken when it is
    there; when nothing can be captured behind it the matcher backtracks and
    tries without it. *)
Definition match_filename_here (s : string) : option string :=
  if startsWith s "filename=" then
    let rest := slice 9 s in
    let behind_quote := if startsWith rest (String dquote EmptyString) then slice 1 rest else rest in
    match span_not_quote behind_quote with
    | String c cap => Some (String c cap)
    | EmptyString =>
        match span_not_quote rest with
        | String c cap => Some (String c cap)
        | EmptyString => None
        end
    end
  else None.

(** [contentDisposition.match(...)]: the leftmost match, [filenameMatch[1]]. *)
Fixpoint match_filename (s : string) : option string :=
  match match_filename_here s with
  | Some cap => Some cap
  | None => match s with
            | EmptyString => None
            | String _ s' => match_filename s'
            end
  end.

(** [o || undefined] and [o || ''] on the result of [headers.get] *)
Definition or_undefined (o : option string) : option string :=
  if truthy o then o else None.

Definition or_empty (o : option string) : string :=
  match o with
  | Some s => s
  | None => EmptyString
  end.

(** The string behind a truthy optional string. *)
Definition the_string (o : option string) : string := or_empty o.

(** [privateKey.startsWith('0x') ? privateKey.slice(2) : privateKey] *)
Definition strip_0x (privateKey : string) : string :=
  if startsWith privateKey "0x" then slice 2 privateKey else privateKey.

(** [cleanStr.startsWith('m') ? cleanStr : `m${cleanStr}`] *)
Definition multibase_prefixed (cleanStr : string) : string :=
  if startsWith cleanStr "m" then cleanStr else "m" ++ cleanStr.

Section Sources.

Context {R : Runtime}.

(** [new URL(s)] *)
Definition new_URL (s : string) : Async URL :=
  if URL_canParse s then Ret {| href := s; searchParams := URL_searchParams s |}
  else Throw (ErrorObj "TypeError" "Invalid URL" NoCause).

(** [await response.text()] *)
Definition response_text (r : Response) : Async string := await (Ret (bodyText r)).

(** ** auth.ts *)

Definition getChallenge (config : AuthConfig) : Async string :=
  url <- new_URL (apiBaseUrl config ++ "/challenge") ;;
  let url := if truthy (address config)
             then searchParams_set "address" (the_string (address config)) url else url in
  let url := match chainId config with
             | Some n => if truthy_number (chainId config)
                         then searchParams_set "chainid" (Number_toString n) url else url
             | None => url
             end in
  response <- await (fetch {| method := GET; url := url;
                              headers := [("Origin", origin config)];
                              body := NoBody |}) ;;
  if negb (ok response) then
    errorText <- response_text response ;;
    Throw (new_Error ("Failed to get challenge: " ++ status_toString (status response)
                      ++ " " ++ statusText response ++ " - " ++ errorText))
  else response_text response.

Definition login (config : AuthConfig) (message signature : string) : Async LoginResponse :=
  url <- new_URL (apiBaseUrl config ++ "/login") ;;
  response <- await (fetch {| method := POST; url := url;
                              headers := [("Content-Type", "application/json")];
                              body := TextBody (JSON_stringify
                                        (JObject [("message", JString message);
                                                  ("signature", JString signature)])) |}) ;;
  if negb (ok response) then
    errorText <- response_text response ;;
    Throw (new_Error ("Failed to login: " ++ status_toString (status response)
                      ++ " " ++ statusText response ++ " - " ++ errorText))
  else await (settle (json_LoginResponse (bodyText response))).

Definition signMessage (privateKey : option string) (message : string) : Async string :=
  if negb (truthy privateKey) then
    Throw (new_Error "Private key is required for signing messages")
  else if message =? EmptyString then
    Throw (new_Error "Message cannot be empty")
  else
    let privateKey := the_string privateKey in
    try_catch
      (let cleanKey := strip_0x privateKey in
       if negb (test_hex cleanKey) then
         Throw (new_Error "Invalid hex format for private key")
       else
         wallet <- settle (ethers_Wallet ("0x" ++ cleanKey)) ;;
         signature <- await (settle (Wallet_signMessage wallet message)) ;;
         Ret signature)
      (fun error =>
         Throw (new_Error ("Failed to sign message: " ++ message_or_String error))).

Definition authenticate (config : AuthConfig) : Async AuthTokens :=
  if negb (truthy (privateKey config)) then
    Throw (new_Error "Private key is required for authentication")
  else
    message <- await (getChallenge config) ;;
    signature <- await (signMessage (privateKey config) message) ;;
    loginResponse <- await (login config message signature) ;;
    Ret {| accessToken := lr_accessToken loginResponse;
           refreshToken := lr_refreshToken loginResponse |}.

(** ** config.ts *)

Definition getAuthTokens (config : MefsConfig) : Async AuthTokens :=
  ReadCache (fun cachedTokens =>
    match cachedTokens with
    | Some tokens => Ret tokens
    | None =>
        tokens <- await (authenticate config) ;;
        WriteCache (Some tokens) (Ret tokens)
    end).

Definition clearAuthTokens : Async unit :=
  WriteCache None (Ret tt).

(** ** client.ts *)

Definition uploadFile (config : ApiConfig) (file : Bytes) (filename : string)
                      (options : UploadOptions) : Async UploadResult :=
  url <- new_URL (api_apiBaseUrl config ++ "/mefs/") ;;
  let formData := [FileEntry "file" file "application/octet-stream" filename] in
  let formData := if truthy (opt_key options)
                  then (formData ++ [TextEntry "key" (the_string (opt_key options))])%list
                  else formData in
  let formData := if truthy_bool (opt_public options)
                  then (formData ++ [TextEntry "public" "true"])%list
                  else formData in
  let formData := if truthy (opt_user options)
                  then (formData ++ [TextEntry "user" (the_string (opt_user options))])%list
                  else formData in
  response <- await (fetch {| method := POST; url := url;
                              headers := [("Authorization", "Bearer " ++ api_accessToken config)];
                              body := FormBody formData |}) ;;
  if negb (ok response) then
    errorText <- response_text response ;;
    Throw (new_Error ("Failed to upload file: " ++ status_toString (status response)
                      ++ " " ++ statusText response ++ " - " ++ errorText))
  else await (settle (json_UploadResult (bodyText response))).

Definition downloadFile (config : ApiConfig) (cid : string) (key : option string)
  : Async DownloadResult :=
  url <- new_URL (api_apiBaseUrl config ++ "/mefs/" ++ cid) ;;
  let url := if truthy key then searchParams_set "key" (the_string key) url else url in
  response <- await (fetch {| method := GET; url := url;
                              headers := [("Authorization", "Bearer " ++ api_accessToken config)];
                              body := NoBody |}) ;;
  if negb (ok response) then
    errorText <- response_text response ;;
    Throw (new_Error ("Failed to download file: " ++ status_toString (status response)
                      ++ " " ++ statusText response ++ " - " ++ errorText))
  else
    let contentType := or_undefined (headers_get response "content-type") in
    let contentDisposition := or_empty (headers_get response "content-disposition") in
    let filename := match match_filename contentDisposition with
                    | Some captured => captured
                    | None => "unknown"
                    end in
    arrayBuffer <- await (Ret (bodyBytes response)) ;;
    Ret {| data := arrayBuffer; filename := filename; contentType := contentType |}.

(** ** utils.ts *)

(** The body of [base64ToBytes] behind the removal of the data-URL prefix. *)
Definition decode_clean (cleanStr : string) : Thrown + Bytes :=
  let prefixedStr := multibase_prefixed cleanStr in
  match multiformats_base64_decode prefixedStr with
  | inr bytes => inr bytes
  | inl _ =>
      let buffer := Buffer_from_base64 cleanStr in
      if Buffer_toString_base64 buffer =? cleanStr then inr buffer
      else inl (new_Error "Invalid base64 format")
  end.

Definition base64ToBytes (base64Str : string) : Thrown + Bytes :=
  let cleanStr := strip_data_url base64Str in
  decode_clean cleanStr.

End Sources.

(** ** The tool handlers (tools/upload.ts, tools/retrieve.ts) *)

Record UploadInput := {
  in_file : string;
  in_name : string;
  in_key : option string;
  in_public : option bool
}.

Record RetrieveInput := {
  in_cid : string;
  in_dkey : option string
}.

(** One element of [content].  [error] is either absent or [true]. *)
Record ContentItem := {
  error : option bool;
  type : string;
  text : string
}.

Record ToolResult := { content : list ContentItem }.

(** [error instanceof Error ? error.name : 'Error'] *)
Definition error_name (e : Thrown) : string :=
  match e with
  | ErrorObj n _ _ => n
  | ZodError _ _ _ => "ZodError"
  | NonError _ => "Error"
  end.

(** [error instanceof Error ? error.message : 'Unknown error'] *)
Definition error_message (e : Thrown) : string :=
  match e with
  | ErrorObj _ m _ => m
  | ZodError m _ _ => m
  | NonError _ => "Unknown error"
  end.

(** [error instanceof Error && error.cause ? (error.cause as Error).message : null] *)
Definition error_cause (e : Thrown) : JsValue :=
  match e with
  | ErrorObj _ _ (CauseWith message) => message
  | _ => JNull
  end.

Section Tools.

Context {R : Runtime}.

(** The [file] member of [uploadInputSchema]: a non-empty string that
    [base64ToBytes] does not throw on; [name] is a non-empty string. *)
Definition uploadInputSchema_accepts (input : UploadInput) : bool :=
  negb (in_file input =? EmptyString)
  && match base64ToBytes (in_file input) with inl _ => false | inr _ => true end
  && negb (in_name input =? EmptyString).

Definition upload_success (input : UploadInput) (result : UploadResult) (fileBytes : Bytes)
  : ToolResult :=
  {| content :=
       [ {| error := None;
            type := "text";
            text := JSON_stringify
                      (JObject [("cid", JString (Mid result));
                                ("filename", JString (in_name input));
                                ("size", JNumber (Z.of_nat (List.length fileBytes)))]) |} ] |}.

Definition upload_failure (e : Thrown) : ToolResult :=
  match e with
  | ZodError _ firstError _ =>
      {| content :=
           [ {| error := Some true;
                type := "text";
                text := JSON_stringify
                          (JObject [("name", JString "Error");
                                    ("message", JString firstError);
                                    ("cause", JNull)]) |} ] |}
  | _ =>
      {| content :=
           [ {| error := Some true;
                type := "text";
                text := JSON_stringify
                          (JObject [("name", JString (error_name e));
                                    ("message", JString (error_message e));
                                    ("cause", error_cause e)]) |} ] |}
  end.

(** The [try] block of the upload handler behind the decoding of the
    payload. *)
Definition upload_transfer (mefsConfig : MefsConfig) (input : UploadInput) (fileBytes : Bytes)
  : Async ToolResult :=
  tokens <- await (getAuthTokens mefsConfig) ;;
  result <- await (uploadFile {| api_apiBaseUrl := apiBaseUrl mefsConfig;
                                 api_accessToken := accessToken tokens |}
                              fileBytes
                              (in_name input)
                              {| opt_key := in_key input;
                                 opt_public := in_public input;
                                 opt_user := None |}) ;;
  Ret (upload_success input result fileBytes).

(** The [try] block of the upload handler. *)
Definition upload_attempt (mefsConfig : MefsConfig) (input : UploadInput) : Async ToolResult :=
  fileBytes <- settle (base64ToBytes (in_file input)) ;;
  upload_transfer mefsConfig input fileBytes.

(** The [catch] block of the upload handler. *)
Definition upload_catch (e : Thrown) : Async ToolResult :=
  ConsoleError "Failed to upload file:" (Ret (upload_failure e)).

(** [uploadTool(mefsConfig).handler] *)
Definition upload_handler (mefsConfig : MefsConfig) (input : UploadInput) : Async ToolResult :=
  try_catch (upload_attempt mefsConfig input) upload_catch.

(** [bytesToBase64] *)
Definition bytesToBase64 (d : Bytes) : string := Buffer_toString_base64 d.

Definition retrieve_success (input : RetrieveInput) (result : DownloadResult) : ToolResult :=
  {| content :=
       [ {| error := None;
            type := "text";
            text := JSON_stringify
                      (JObject [("cid", JString (in_cid input));
                                ("filename", JString (filename result));
                                ("file", JString (bytesToBase64 (data result)));
                                ("size", JNumber (Z.of_nat (List.length (data result))));
                                ("contentType", JString_or_undefined (contentType result))]) |} ] |}.

Definition retrieve_failure (mefsConfig : MefsConfig) (e : Thrown) : ToolResult :=
  {| content :=
       [ {| error := Some true;
            type := "text";
            text := JSON_stringify
                      (JObject [("name", JString (error_name e));
                                ("message", JString (error_message e));
                                ("cause", error_cause e);
                                ("apiBaseUrl", JString (apiBaseUrl mefsConfig))]) |} ] |}.

(** The [try] block of the retrieve handler. *)
Definition retrieve_attempt (mefsConfig : MefsConfig) (input : RetrieveInput)
  : Async ToolResult :=
  tokens <- await (getAuthTokens mefsConfig) ;;
  result <- await (downloadFile {| api_apiBaseUrl := apiBaseUrl mefsConfig;
                                   api_accessToken := accessToken tokens |}
                                (in_cid input)
                                (in_dkey input)) ;;
  Ret (retrieve_success input result).

(** The [catch] block of the retrieve handler. *)
Definition retrieve_catch (mefsConfig : MefsConfig) (e : Thrown) : Async ToolResult :=
  ConsoleError "Failed to retrieve file:" (Ret (retrieve_failure mefsConfig e)).

(** [retrieveTool(mefsConfig).handler] *)
Definition retrieve_handler (mefsConfig : MefsConfig) (input : RetrieveInput)
  : Async ToolResult :=
  try_catch (retrieve_attempt mefsConfig input) (retrieve_catch mefsConfig).

End Tools.

(** ** Several calls in flight

    A call runs synchronously until it reaches a [fetch] (the request leaves
    at once, the answer comes in a later turn of the event loop) or any
    other [await]; the event loop then resumes the suspended calls one at a
    time, in an order the program does not control. *)

Inductive Task (A : Type) : Type :=
| Settled (r : Thrown + A)
| AwaitingResponse (r : Request) (k : Thrown + Response -> Async A)
| Suspended (k : Async A).

Arguments Settled {A} r.
Arguments AwaitingResponse {A} r k.
Arguments Suspended {A} k.

(** Run [p] up to its next suspension point. *)
Fixpoint advance {A : Type} (p : Async A) (w : World) : Task A * World :=
  match p with
  | Ret a => (Settled (inr a), w)
  | Throw e => (Settled (inl e), w)
  | ReadCache k => advance (k (cachedTokens w)) w
  | WriteCache c k => advance k (set_cache c w)
  | Fetch r k => (AwaitingResponse r k, log_call r w)
  | Await k => (Suspended k, w)
  | ConsoleError l k => advance k (log_stderr l w)
  end.

(** Resume a suspended call: the answer to its pending request arrives, or
    its turn after an [await] comes. *)
Definition resume {A : Type} (net : Transport) (t : Task A) (w : World) : Task A * World :=
  match t with
  | Settled r => (Settled r, w)
  | AwaitingResponse r k => advance (k (net (calls w) r)) w
  | Suspended k => advance k w
  end.

(** Start the calls [ps] one after the other in the same turn, as in
    [Promise.all(ps)]. *)
Fixpoint start_all {A : Type} (ps : list (Async A)) (w : World) : list (Task A) * World :=
  match ps with
  | [] => ([], w)
  | p :: ps' =>
      let (t, w1) := advance p w in
      let (ts, w2) := start_all ps' w1 in
      (t :: ts, w2)
  end.

(** Resume the call at position [i]. *)
Fixpoint resume_nth {A : Type} (net : Transport) (i : nat) (ts : list (Task A)) (w : World)
  : list (Task A) * World :=
  match ts, i with
  | [], _ => ([], w)
  | t :: ts', O => let (t', w') := resume net t w in (t' :: ts', w')
  | t :: ts', S i' => let (ts'', w') := resume_nth net i' ts' w in (t :: ts'', w')
  end.

(** Let the event loop resume calls in the order [schedule]. *)
Fixpoint event_loop {A : Type} (net : Transport) (schedule : list nat)
                    (ts : list (Task A)) (w : World) : list (Task A) * World :=
  match schedule with
  | [] => (ts, w)
  | i :: rest => let (ts', w') := resume_nth net i ts w in event_loop net rest ts' w'
  end.

Definition settled_with {A : Type} (t : Task A) : option (Thrown + A) :=
  match t with
  | Settled r => Some r
  | _ => None
  end.

(** Requests by endpoint. *)
Definition ends_with (suffix s : string) : bool :=
  let n := String.length s in
  let m := String.length suffix in
  (m <=? n)%nat && (slice (n - m) s =? suffix).

Definition is_challenge (r : Request) : bool :=
  match method r with
  | GET => ends_with "/challenge" (href (url r))
  | POST => false
  end.

Definition is_login (r : Request) : bool :=
  match method r with
  | POST => ends_with "/login" (href (url r))
  | GET => false
  end.

Definition count_calls (f : Request -> bool) (w : World) : nat :=
  List.length (filter f (calls w)).

(** ** The error taxonomy

    The sources throw plain [Error]s and tell failures apart by message
    only.  [error_class] reads the class of a failure off its message. *)

Inductive ErrorClass :=
| EmptyInput
| InvalidKeyFormat
| MissingPrivateKey
| ChallengeRequestFailed
| LoginFailed
| UploadFailed
| DownloadFailed
| InvalidEncoding.

Definition error_class (e : Thrown) : option ErrorClass :=
  let m := message_or_String e in
  if (m =? "Private key is required for signing messages") || (m =? "Message cannot be empty")
  then Some EmptyInput
  else if startsWith m "Failed to sign message: " then Some InvalidKeyFormat
  else if m =? "Private key is required for authentication" then Some MissingPrivateKey
  else if startsWith m "Failed to get challenge: " then Some ChallengeRequestFailed
  else if startsWith m "Failed to login: " then Some LoginFailed
  else if startsWith m "Failed to upload file: " then Some UploadFailed
  else if startsWith m "Failed to download file: " then Some DownloadFailed
  else if m =? "Invalid base64 format" then Some InvalidEncoding
  else None.

(** [p] throws an error of class [c] and leaves the world as it found it. *)
Definition fails_with {A : Type} (net : Transport) (w : World) (p : Async A) (c : ErrorClass)
  : Prop :=
  exists e, run net p w = (inl e, w) /\ error_class e = Some c.

(** A key of 64 hexadecimal digits. *)
Definition is_hex64 (s : string) : bool :=
  (String.length s =? 64)%nat && all_hex s.

(** The failure the signer owes to its inputs: an absent or empty key or an
    empty message is an [EmptyInput]; otherwise a key that is not 64
    hexadecimal digits behind an optional [0x] is an [InvalidKeyFormat]. *)
Definition sign_input_failure (privateKey : option string) (message : string)
  : option ErrorClass :=
  if negb (truthy privateKey) || (message =? EmptyString) then Some EmptyInput
  else if negb (is_hex64 (strip_0x (the_string privateKey))) then Some InvalidKeyFormat
  else None.

(** ** A reference platform

    Executable models of the library functions, used to evaluate the
    sources on concrete inputs.  They follow the algorithms of the
    libraries (multiformats' rfc4648 decoder, Node's Buffer); the general
    theorems below do not depend on them. *)

Module Reference.

Definition base64_alphabet : string :=
  "ABCDEFGHIJKLMNOPQRSTUVWXYZabcdefghijklmnopqrstuvwxyz0123456789+/".

Fixpoint index_of (c : ascii) (s : string) : option N :=
  match s with
  | EmptyString => None
  | String d s' => if (c =? d)%char then Some 0%N else option_map N.succ (index_of c s')
  end.

Definition byte_of_N (n : N) : byte :=
  match Byte.of_N n with
  | Some b => b
  | None => x00
  end.

Definition is_padding (c : ascii) : bool := (c =? "=")%char.

Fixpoint drop_padding (l : list ascii) : list ascii :=
  match l with
  | c :: l' => if is_padding c then drop_padding l' else l
  | [] => []
  end.

(** [while (string[end - 1] === '=') --end] *)
Definition without_trailing_padding (l : list ascii) : list ascii :=
  rev (drop_padding (rev l)).

(** The loop of multiformats' rfc4648 [decode] with [bitsPerChar = 6]:
    [buffer] is a 32-bit integer, [bits] the number of bits waiting in it. *)
Fixpoint rfc4648_loop (l : list ascii) (buffer bits : N) (out : list byte)
  : Thrown + (N * N * list byte) :=
  match l with
  | [] => inr (buffer, bits, out)
  | c :: l' =>
      match index_of c base64_alphabet with
      | None => inl (ErrorObj "SyntaxError" "Non-base64 character" NoCause)
      | Some value =>
          let buffer := N.land (N.lor (N.shiftl buffer 6) value) 4294967295 in
          let bits := (bits + 6)%N in
          if (8 <=? bits)%N then
            let bits := (bits - 8)%N in
            rfc4648_loop l' buffer bits
                         (out ++ [byte_of_N (N.land 255 (N.shiftr buffer bits))])%list
          else rfc4648_loop l' buffer bits out
      end
  end.

Definition rfc4648_decode (s : string) : Thrown + Bytes :=
  match rfc4648_loop (without_trailing_padding (list_ascii_of_string s)) 0 0 [] with
  | inl e => inl e
  | inr (buffer, bits, out) =>
      if (6 <=? bits)%N || negb (N.land 255 (N.shiftl buffer (8 - bits)) =? 0)%N
      then inl (ErrorObj "SyntaxError" "Unexpected end of data" NoCause)
      else inr out
  end.

(** [base64.decode(text)]: the multibase prefix [m] is required and removed. *)
Definition base64_decode (text : string) : Thrown + Bytes :=
  if startsWith text "m" then rfc4648_decode (slice 1 text)
  else inl (new_Error "Unable to decode multibase string").

(** Node's decoder accepts both alphabets, skips every other code unit and
    stops at the first padding character. *)
Definition unbase64 (c : ascii) : option N :=
  if (c =? "-")%char then Some 62%N
  else if (c =? "_")%char then Some 63%N
  else index_of c base64_alphabet.

Fixpoint sextets (l : list ascii) : list N :=
  match l with
  | [] => []
  | c :: l' =>
      match unbase64 c with
      | Some v => v :: sextets l'
      | None => if is_padding c then [] else sextets l'
      end
  end.

Fixpoint bytes_of_sextets (l : list N) : list byte :=
  match l with
  | a :: b :: c :: d :: l' =>
      byte_of_N (N.lor (N.shiftl a 2) (N.shiftr b 4))
      :: byte_of_N (N.lor (N.shiftl (N.land b 15) 4) (N.shiftr c 2))
      :: byte_of_N (N.lor (N.shiftl (N.land c 3) 6) d)
      :: bytes_of_sextets l'
  | [a; b; c] =>
      [byte_of_N (N.lor (N.shiftl a 2) (N.shiftr b 4));
       byte_of_N (N.lor (N.shiftl (N.land b 15) 4) (N.shiftr c 2))]
  | [a; b] => [byte_of_N (N.lor (N.shiftl a 2) (N.shiftr b 4))]
  | _ => []
  end.

(** [Buffer.from(s, 'base64')] *)
Definition Buffer_from (s : string) : Bytes :=
  bytes_of_sextets (sextets (list_ascii_of_string s)).

Definition base64_char (n : N) : ascii :=
  match get (N.to_nat n) base64_alphabet with
  | Some c => c
  | None => "="%char
  end.

Fixpoint encode_octets (l : list N) : list ascii :=
  match l with
  | a :: b :: c :: l' =>
      base64_char (N.shiftr a 2)
      :: base64_char (N.lor (N.shiftl (N.land a 3) 4) (N.shiftr b 4))
      :: base64_char (N.lor (N.shiftl (N.land b 15) 2) (N.shiftr c 6))
      :: base64_char (N.land c 63)
      :: encode_octets l'
  | [a; b] =>
      [base64_char (N.shiftr a 2);
       base64_char (N.lor (N.shiftl (N.land a 3) 4) (N.shiftr b 4));
       base64_char (N.shiftl (N.land b 15) 2);
       "="%char]
  | [a] =>
      [base64_char (N.shiftr a 2);
       base64_char (N.shiftl (N.land a 3) 4);
       "="%char; "="%char]
  | [] => []
  end.

(** [buffer.toString('base64')] *)
Definition Buffer_toString (d : Bytes) : string :=
  string_of_list_ascii (encode_octets (map Byte.to_N d)).

(** [JSON.stringify] for the objects the handlers build; it escapes the
    double quote and the backslash only. *)
Fixpoint escape (s : string) : string :=
  match s with
  | EmptyString => EmptyString
  | String c s' =>
      if (c =? dquote)%char || (c =? "\")%char
      then String "\"%char (String c (escape s'))
      else String c (escape s')
  end.

Definition quoted (s : string) : string :=
  String dquote (escape s) ++ String dquote EmptyString.

Definition stringify_atom (v : JsValue) : option string :=
  match v with
  | JUndefined => None
  | JNull => Some "null"
  | JBool true => Some "true"
  | JBool false => Some "false"
  | JNumber z => Some (decimal z)
  | JString s => Some (quoted s)
  | JObject _ => Some "{}"
  end.

Fixpoint stringify_props (ps : list (string * JsValue)) : list string :=
  match ps with
  | [] => []
  | (k, v) :: ps' =>
      match stringify_atom v with
      | Some s => (quoted k ++ ":" ++ s) :: stringify_props ps'
      | None => stringify_props ps'
      end
  end.

Definition stringify (v : JsValue) : string :=
  match v with
  | JObject ps => "{" ++ String.concat "," (stringify_props ps) ++ "}"
  | _ => or_empty (stringify_atom v)
  end.

(** The query of a URL given as a string: what stands between the first
    [?] and the [#] of the fragment, split at [&] and [=].  Nothing is
    percent-decoded. *)
Fixpoint before_char (c : ascii) (s : string) : string :=
  match s with
  | EmptyString => EmptyString
  | String d s' => if (d =? c)%char then EmptyString else String d (before_char c s')
  end.

Fixpoint after_char (c : ascii) (s : string) : option string :=
  match s with
  | EmptyString => None
  | String d s' => if (d =? c)%char then Some s' else after_char c s'
  end.

Fixpoint split_at (c : ascii) (s : string) : list string :=
  match s with
  | EmptyString => [EmptyString]
  | String d s' =>
      if (d =? c)%char then EmptyString :: split_at c s'
      else match split_at c s' with
           | piece :: pieces => String d piece :: pieces
           | [] => [String d EmptyString]
           end
  end.

Definition query_entry (piece : string) : string * string :=
  (before_char "=" piece, or_empty (after_char "=" piece)).

Definition query_entries (s : string) : list (string * string) :=
  match after_char "?" (before_char "#" s) with
  | Some query =>
      map query_entry (filter (fun piece => negb (piece =? EmptyString)) (split_at "&" query))
  | None => []
  end.

(** A signer that accepts the keys of 32 bytes and signs with a fixed
    string, and JSON decoders that read the whole body as the one string
    the caller is after.  Numbers are printed with all their digits; beyond
    the safe integers that stands in for JavaScript's rounding and exponent
    notation, which the cases below do not reach. *)
Definition platform : Runtime := {|
  URL_canParse := fun _ => true;
  URL_searchParams := query_entries;
  Number_toString_large := decimal;
  JSON_stringify := stringify;
  json_LoginResponse := fun s =>
    inr {| lr_accessToken := "access-" ++ s;
           lr_refreshToken := "refresh-" ++ s;
           lr_newAccount := false |};
  json_UploadResult := fun s => inr {| Mid := s |};
  ethers_Wallet := fun k =>
    if (String.length k =? 66)%nat then inr {| wallet_privateKey := k |}
    else inl (ErrorObj "TypeError" "invalid private key" NoCause);
  Wallet_signMessage := fun _ _ => inr "0xsigned";
  multiformats_base64_decode := base64_decode;
  Buffer_from_base64 := Buffer_from;
  Buffer_toString_base64 := Buffer_toString
|}.

Definition response_ok (text : string) : Response :=
  {| ok := true; status := 200; statusText := "OK";
     headers_get := fun _ => None;
     bodyBytes := list_byte_of_string text |}.

(** A service that answers every request with [200 OK]; a login is answered
    with the number of logins seen so far. *)
Definition service : Transport :=
  fun history r =>
    if is_login r
    then inr (response_ok (status_toString (List.length (filter is_login history))))
    else if is_challenge r then inr (response_ok "challenge")
    else inr (response_ok "stored").

Definition empty_world : World :=
  {| cachedTokens := None; calls := []; stderr := [] |}.

Definition config : MefsConfig :=
  {| apiBaseUrl := "https://api.mefs.io:10000/produce";
     origin := "https://memo.io";
     address := None;
     chainId := Some 985%Z;
     privateKey :=
       Some "0xac0974bec39a17e36ba4a6b4d238ff944bacb478cbed5efcae784d7bf4f2ff80" |}.

End Reference.

(** * Predicates and cases of the statements *)

(** ** Calls that leave the cache alone *)

Inductive cache_free {A : Type} : Async A -> Prop :=
| cf_Ret a : cache_free (Ret a)
| cf_Throw e : cache_free (Throw e)
| cf_Fetch r k : (forall x, cache_free (k x)) -> cache_free (Fetch r k)
| cf_Await k : cache_free k -> cache_free (Await k)
| cf_ConsoleError l k : cache_free k -> cache_free (ConsoleError l k).

(** ** Round trips

    [round_trip n p]: on every path [p] issues no challenge request and at
    most [n] login requests, and exactly [n] on the paths that return. *)

Inductive round_trip {A : Type} : nat -> Async A -> Prop :=
| rt_Ret a : round_trip 0 (Ret a)
| rt_Throw n e : round_trip n (Throw e)
| rt_ReadCache n k : (forall c, round_trip n (k c)) -> round_trip n (ReadCache k)
| rt_WriteCache n c k : round_trip n k -> round_trip n (WriteCache c k)
| rt_Fetch_other n r k :
    is_challenge r = false -> is_login r = false ->
    (forall x, round_trip n (k x)) -> round_trip n (Fetch r k)
| rt_Fetch_login n r k :
    is_challenge r = false -> is_login r = true ->
    (forall x, round_trip n (k x)) -> round_trip (S n) (Fetch r k)
| rt_Await n k : round_trip n k -> round_trip n (Await k)
| rt_ConsoleError n l k : round_trip n k -> round_trip n (ConsoleError l k).

(** The same of a suspended call. *)
Definition task_round_trip {A : Type} (n : nat) (t : Task A) : Prop :=
  match t with
  | Settled (inr _) => n = 0
  | Settled (inl _) => True
  | AwaitingResponse _ k => forall x, round_trip n (k x)
  | Suspended k => round_trip n k
  end.

(** A call that has returned. *)
Definition resolved {A : Type} (t : Task A) : Prop :=
  exists a, t = Settled (inr a).

(** [p] sends the request [c] in the turn it is started in, whatever the
    world, and what is left of it is [n] login requests away from
    returning. *)
Definition starts_with {A : Type} (c : Request) (n : nat) (p : Async A) : Prop :=
  exists k, (forall w, advance p w = (AwaitingResponse c k, log_call c w))
            /\ forall x, round_trip n (k x).

(** ** Forms, headers and envelopes *)

(** The form has an entry under the field [f]. *)
Definition has_field (f : string) (entries : list FormEntry) : bool :=
  existsb (fun e => entry_field e =? f) entries.

(** The fields of the multipart form a request carries. *)
Definition form_fields (r : Request) : list string :=
  match body r with
  | FormBody entries => map entry_field entries
  | _ => []
  end.

(** What [uploadFile] throws on a response that is not [ok]. *)
Definition upload_failed (response : Response) : Thrown :=
  new_Error ("Failed to upload file: " ++ status_toString (status response) ++ " "
             ++ statusText response ++ " - " ++ bodyText response).

(** A transport that answers every request with [response]. *)
Definition answering (response : Response) : Transport :=
  fun _ _ => inr response.

(** No double quote occurs in [s]. *)
Fixpoint no_quote (s : string) : bool :=
  match s with
  | EmptyString => true
  | String c s' => negb (c =? dquote)%char && no_quote s'
  end.




(** The object [props] has the property [k], and [JSON.stringify] keeps it. *)
Definition carries (k : string) (props : list (string * JsValue)) : Prop :=
  exists v, In (k, v) props /\ v <> JUndefined.

(** The cause of [e], when [e] has one, has a [message]: reading it gives
    something else than [undefined].  That is so of every cause that is an
    [Error]. *)
Definition cause_has_message (e : Thrown) : Prop :=
  match e with
  | ErrorObj _ _ (CauseWith JUndefined) => False
  | _ => True
  end.


Section Envelopes.

Context {R : Runtime}.

(** Strict validation: decoding and encoding again gives the string back. *)
Definition strict_base64 (s : string) : bool :=
  Buffer_toString_base64 (Buffer_from_base64 s) =? s.

(** A result flagged as an error, whose text is the JSON of an object with
    [name], [message] and [cause]. *)
Definition error_envelope (r : ToolResult) : Prop :=
  exists props,
    content r = [ {| error := Some true; type := "text";
                     text := JSON_stringify (JObject props) |} ]
    /\ carries "name" props /\ carries "message" props /\ carries "cause" props.

End Envelopes.

(** ** Cases *)

Module Cases.

(** A configuration without a private key, and a session that already
    holds a token pair. *)
Definition keyless : MefsConfig :=
  {| apiBaseUrl := "https://api.mefs.io:10000/produce";
     origin := "https://memo.io";
     address := None;
     chainId := Some 985%Z;
     privateKey := None |}.

Definition held : AuthTokens :=
  {| accessToken := "held-access"; refreshToken := "held-refresh" |}.

Definition authenticated_world : World :=
  {| cachedTokens := Some held; calls := []; stderr := [] |}.

End Cases.

Module InFlightCases.

Import Reference.

(** Two calls made in one turn; the event loop then serves the first until
    it has returned, and the second after it. *)
Definition two_calls : list (Async AuthTokens) :=
  [getAuthTokens (R := platform) config; getAuthTokens (R := platform) config].

Definition first_then_second : list nat :=
  (repeat 0 12 ++ repeat 1 12)%list.

Definition started : list (Task AuthTokens) * World :=
  start_all two_calls empty_world.

Definition finished : list (Task AuthTokens) * World :=
  event_loop service first_then_second (fst started) (snd started).

End InFlightCases.

Module StorageCases.

Import Reference.

Definition api : ApiConfig :=
  {| api_apiBaseUrl := "https://api.mefs.io:10000/produce";
     api_accessToken := "access-1" |}.

Definition hello : Bytes := list_byte_of_string "hello".

(** The option [public] is there, and it is [false]. *)
Definition private_options : UploadOptions :=
  {| opt_key := None; opt_public := Some false; opt_user := None |}.

Definition public_options : UploadOptions :=
  {| opt_key := Some "f1d4a0b37124c3a7"; opt_public := Some true; opt_user := None |}.

(** A download answered with an empty [Content-Type] header. *)
Definition empty_content_type : Response :=
  {| ok := true; status := 200; statusText := "OK";
     headers_get := fun h => if h =? "content-type" then Some EmptyString else None;
     bodyBytes := hello |}.

Definition attachment : Response :=
  {| ok := true; status := 200; statusText := "OK";
     headers_get := fun h =>
       if h =? "content-type" then Some "application/pdf"
       else if h =? "content-disposition"
            then Some ("attachment; filename=" ++ String dquote ("report.pdf" ++ String dquote EmptyString))
            else None;
     bodyBytes := hello |}.

End StorageCases.

Module DecodingCases.

Import Reference.

Definition test_bytes : Bytes := list_byte_of_string "test".

(** [test] in base64 is [dGVzdA==]; here the padding is left out. *)
Definition unpadded : UploadInput :=
  {| in_file := "dGVzdA"; in_name := "test.txt"; in_key := None; in_public := None |}.

Definition not_base64 : UploadInput :=
  {| in_file := "not-base64"; in_name := "test.txt"; in_key := None; in_public := None |}.

Definition data_url : UploadInput :=
  {| in_file := "data:text/plain;base64,dGVzdA==";
     in_name := "test.txt"; in_key := None; in_public := None |}.


End DecodingCases.

(** * The rest of the sources *)

(** ** config.ts: [privateKeyToAddress] and [loadMefsConfig] *)

(** The environment variables [loadMefsConfig] reads; a variable that is
    not set is [undefined]. *)
Record Env := {
  MEFS_API_BASE_URL : option string;
  MEFS_ORIGIN : option string;
  MEFS_CHAIN_ID : option string;
  MEFS_PRIVATE_KEY : option string
}.

Section Config.

Context {R : Runtime}.

(** [wallet.address] *)
Variable Wallet_address : Wallet -> string.

(** [parseInt(s, 10)]; [NaN] is [None].  [chainId] is a number, and the one
    place that reads it ([getChallenge]) takes [NaN] and [undefined] alike,
    so [NaN] is kept as the absent [chainId]. *)
Variable parseInt10 : string -> option Z.

Definition privateKeyToAddress (privateKeyHex : string) : Thrown + string :=
  if privateKeyHex =? EmptyString then
    inl (new_Error "Private key cannot be empty")
  else
    let cleanKey := strip_0x privateKeyHex in
    if negb (test_hex cleanKey) then
      inl (new_Error "Invalid hex format for private key")
    else
      match ethers_Wallet ("0x" ++ cleanKey) with
      | inr wallet => inr (Wallet_address wallet)
      | inl error =>
          inl (new_Error ("Failed to convert private key to address: "
                          ++ message_or_String error))
      end.

(** [loadMefsConfig()]: the configuration, and the lines written with
    [console.warn]. *)
Definition loadMefsConfig (env : Env) : MefsConfig * list string :=
  let apiBaseUrl := if truthy (MEFS_API_BASE_URL env)
                    then the_string (MEFS_API_BASE_URL env)
                    else "https://api.mefs.io:10000/produce" in
  let origin := if truthy (MEFS_ORIGIN env)
                then the_string (MEFS_ORIGIN env)
                else "https://memo.io" in
  let chainId := if truthy (MEFS_CHAIN_ID env)
                 then parseInt10 (the_string (MEFS_CHAIN_ID env))
                 else Some 985%Z in
  let privateKey := MEFS_PRIVATE_KEY env in
  let warned := if negb (truthy privateKey)
                then ["Warning: MEFS_PRIVATE_KEY not provided. Authentication may fail."]
                else [] in
  let converted :=
    if truthy privateKey then
      match privateKeyToAddress (the_string privateKey) with
      | inr address => (Some address, [])
      | inl error =>
          (None, ["Warning: Failed to convert private key to address: "
                  ++ message_or_String error])
      end
    else (None, []) in
  ({| apiBaseUrl := apiBaseUrl;
      origin := origin;
      address := or_undefined (fst converted);
      chainId := chainId;
      privateKey := privateKey |},
   (warned ++ snd converted)%list).

End Config.

(** ** Requests and failures by name *)

Definition challenge_failed (response : Response) : Thrown :=
  new_Error ("Failed to get challenge: " ++ status_toString (status response) ++ " "
             ++ statusText response ++ " - " ++ bodyText response).

Definition login_failed (response : Response) : Thrown :=
  new_Error ("Failed to login: " ++ status_toString (status response) ++ " "
             ++ statusText response ++ " - " ++ bodyText response).

Definition download_failed (response : Response) : Thrown :=
  new_Error ("Failed to download file: " ++ status_toString (status response) ++ " "
             ++ statusText response ++ " - " ++ bodyText response).

(** The form [uploadFile] builds. *)
Definition upload_form (file : Bytes) (filename : string) (options : UploadOptions)
  : list FormEntry :=
  ([FileEntry "file" file "application/octet-stream" filename]
   ++ (if truthy (opt_key options) then [TextEntry "key" (the_string (opt_key options))]
       else [])
   ++ (if truthy_bool (opt_public options) then [TextEntry "public" "true"] else [])
   ++ (if truthy (opt_user options) then [TextEntry "user" (the_string (opt_user options))]
       else []))%list.

(** The options the upload handler passes on. *)
Definition handler_options (input : UploadInput) : UploadOptions :=
  {| opt_key := in_key input; opt_public := in_public input; opt_user := None |}.

(** The [ApiConfig] a handler builds from the configuration and the tokens. *)
Definition api_of (mefsConfig : MefsConfig) (tokens : AuthTokens) : ApiConfig :=
  {| api_apiBaseUrl := apiBaseUrl mefsConfig; api_accessToken := accessToken tokens |}.

(** What [downloadFile] returns on an [ok] response. *)
Definition downloaded (response : Response) : DownloadResult :=
  {| data := bodyBytes response;
     filename := match match_filename (or_empty (headers_get response "content-disposition")) with
                 | Some captured => captured
                 | None => "unknown"
                 end;
     contentType := or_undefined (headers_get response "content-type") |}.

Section RequestsByName.

Context {R : Runtime}.

(** The URL made of the string [s], its query untouched. *)
Definition url_of (s : string) : URL :=
  {| href := s; searchParams := URL_searchParams s |}.

(** The query of the challenge request: that of the URL made of
    [<apiBaseUrl>/challenge], behind the two [set]s of [getChallenge]. *)
Definition challenge_params (config : AuthConfig) : list (string * string) :=
  let query := URL_searchParams (apiBaseUrl config ++ "/challenge") in
  let query := if truthy (address config)
               then searchParams_set_list "address" (the_string (address config)) query
               else query in
  match chainId config with
  | Some n => if (n =? 0)%Z then query
              else searchParams_set_list "chainid" (Number_toString n) query
  | None => query
  end.

Definition challenge_request (config : AuthConfig) : Request :=
  {| method := GET;
     url := {| href := apiBaseUrl config ++ "/challenge";
               searchParams := challenge_params config |};
     headers := [("Origin", origin config)];
     body := NoBody |}.

(** The query of the download request. *)
Definition download_params (config : ApiConfig) (cid : string) (key : option string)
  : list (string * string) :=
  let query := URL_searchParams (api_apiBaseUrl config ++ "/mefs/" ++ cid) in
  if truthy key then searchParams_set_list "key" (the_string key) query else query.

Definition download_request (config : ApiConfig) (cid : string) (key : option string)
  : Request :=
  {| method := GET;
     url := {| href := api_apiBaseUrl config ++ "/mefs/" ++ cid;
               searchParams := download_params config cid key |};
     headers := [("Authorization", "Bearer " ++ api_accessToken config)];
     body := NoBody |}.

Definition upload_request (config : ApiConfig) (file : Bytes) (filename : string)
           (options : UploadOptions) : Request :=
  {| method := POST;
     url := url_of (api_apiBaseUrl config ++ "/mefs/");
     headers := [("Authorization", "Bearer " ++ api_accessToken config)];
     body := FormBody (upload_form file filename options) |}.

Definition login_request (config : AuthConfig) (message signature : string) : Request :=
  {| method := POST;
     url := url_of (apiBaseUrl config ++ "/login");
     headers := [("Content-Type", "application/json")];
     body := TextBody (JSON_stringify (JObject [("message", JString message);
                                                ("signature", JString signature)])) |}.

(** The text of the envelope for the failure [e] of the upload handler, when
    [e] is an [Error] made with [new Error(message)]. *)
Definition error_text (message : string) : string :=
  JSON_stringify (JObject [("name", JString "Error");
                           ("message", JString message);
                           ("cause", JNull)]).

End RequestsByName.

(** ** Calls that cache what they return *)

(** [caches_result p]: [p] does not read the cache, and it returns a pair
    only behind writing that pair to the cache. *)
Inductive caches_result : Async AuthTokens -> Prop :=
| cr_Throw e : caches_result (Throw e)
| cr_Write tokens : caches_result (WriteCache (Some tokens) (Ret tokens))
| cr_Fetch r k : (forall x, caches_result (k x)) -> caches_result (Fetch r k)
| cr_Await k : caches_result k -> caches_result (Await k)
| cr_ConsoleError l k : caches_result k -> caches_result (ConsoleError l k).

Definition task_caches_result (t : Task AuthTokens) : Prop :=
  match t with
  | Settled _ => True
  | AwaitingResponse _ k => forall x, caches_result (k x)
  | Suspended k => caches_result k
  end.

(** A call that has not settled yet. *)
Definition pending {A : Type} (t : Task A) : Prop :=
  match t with
  | Settled _ => False
  | _ => True
  end.

(** The cache holds the pair of a call that has returned, and is empty as
    long as none has. *)
Definition cache_of_a_caller (ts : list (Task AuthTokens)) (w : World) : Prop :=
  match cachedTokens w with
  | Some tokens => In (Settled (inr tokens)) ts
  | None => forall tokens, ~ In (Settled (inr tokens)) ts
  end.

(** ** More cases *)

Module Scenarios.

Import Reference.

Definition unauthorized : Response :=
  {| ok := false; status := 401; statusText := "Unauthorized";
     headers_get := fun _ => None;
     bodyBytes := list_byte_of_string "Invalid signature" |}.

(** A service that refuses every request. *)
Definition refusing : Transport := answering unauthorized.





(** A service that hands out challenges and refuses every login. *)
Definition refusing_login : Transport :=
  fun _ r => if is_login r then inr unauthorized else inr (response_ok "challenge").

(** A service whose challenge is the empty string. *)
Definition empty_challenge : Transport :=
  fun _ _ => inr (response_ok EmptyString).

(** A key that is not hexadecimal. *)
Definition bad_key : MefsConfig :=
  {| apiBaseUrl := "https://api.mefs.io:10000/produce";
     origin := "https://memo.io";
     address := None;
     chainId := Some 0%Z;
     privateKey := Some "invalid-key" |}.

Definition with_address : MefsConfig :=
  {| apiBaseUrl := "https://api.mefs.io:10000/produce";
     origin := "https://memo.io";
     address := Some "0xf39Fd6e51aad88F6F4ce6aB8827279cffFb92266";
     chainId := Some 985%Z;
     privateKey :=
       Some "0xac0974bec39a17e36ba4a6b4d238ff944bacb478cbed5efcae784d7bf4f2ff80" |}.

Definition hex_key : string :=
  "ac0974bec39a17e36ba4a6b4d238ff944bacb478cbed5efcae784d7bf4f2ff80".

(** [wallet.address], standing in for the address of the key. *)
Definition address_of (wallet : Wallet) : string :=
  "0xf39Fd6e51aad88F6F4ce6aB8827279cffFb92266".

(** [parseInt(s, 10)] on strings of digits; [NaN] on the others. *)
Fixpoint digits (s : string) (acc : Z) : option Z :=
  match s with
  | EmptyString => Some acc
  | String c s' =>
      let n := nat_of_ascii c in
      if ((48 <=? n) && (n <=? 57))%nat
      then digits s' (10 * acc + Z.of_nat (n - 48))%Z
      else None
  end.

Definition parse_digits (s : string) : option Z :=
  match s with
  | EmptyString => None
  | _ => digits s 0%Z
  end.

Definition no_key_env : Env :=
  {| MEFS_API_BASE_URL := None; MEFS_ORIGIN := None;
     MEFS_CHAIN_ID := None; MEFS_PRIVATE_KEY := None |}.

Definition bad_key_env : Env :=
  {| MEFS_API_BASE_URL := None; MEFS_ORIGIN := None;
     MEFS_CHAIN_ID := None; MEFS_PRIVATE_KEY := Some "invalid-key" |}.

Definition full_env : Env :=
  {| MEFS_API_BASE_URL := Some "https://api.test.com";
     MEFS_ORIGIN := Some "https://test.com";
     MEFS_CHAIN_ID := Some "137";
     MEFS_PRIVATE_KEY := Some ("0x" ++ hex_key) |}.

Definition retrieve_report : RetrieveInput :=
  {| in_cid := "bafy-report"; in_dkey := Some "f1d4a0b37124c3a7" |}.

Definition upload_test : UploadInput :=
  {| in_file := "dGVzdA=="; in_name := "test.txt"; in_key := None; in_public := Some true |}.

End Scenarios.

(** * Properties *)

(** ** Signer *)

Lemma all_hex_of_test_hex (s : string) : test_hex s = true -> all_hex s = true.
Proof.
  unfold test_hex. intros H. apply andb_prop in H. exact (proj2 H).
Qed.

Lemma not_hex64_length (s : string) :
  is_hex64 s = false -> test_hex s = true -> String.length s <> 64.
Proof.
  unfold is_hex64. intros Hbad Hhex Hlen.
  rewrite (all_hex_of_test_hex s Hhex), Hlen in Hbad. discriminate.
Qed.

Lemma Reference_wallet_key_length (k : string) :
  String.length k <> 64 ->
  exists e, @ethers_Wallet Reference.platform ("0x" ++ k) = inl e.
Proof.
  intros Hlen. simpl.
  destruct (Nat.eqb_spec (String.length k) 64) as [E | _]; [contradiction | eauto].
Qed.

Section Signer.

Context {R : Runtime}.

(** [new ethers.Wallet] takes a key of 32 bytes and throws on any other. *)
Hypothesis wallet_key_length :
  forall k, String.length k <> 64 -> exists e, ethers_Wallet ("0x" ++ k) = inl e.

(** C5: [signMessage] fails with the class its inputs call for: [EmptyInput]
    for an undefined or empty key and for an empty message, and otherwise
    [InvalidKeyFormat] for a key that, behind an optional [0x], is not a
    string of 64 hexadecimal digits.  It touches neither the cache nor the
    network on the way. *)
Theorem signMessage_failure_class
  (net : Transport) (w : World) (privateKey : option string) (message : string)
  (c : ErrorClass) :
  sign_input_failure privateKey message = Some c ->
  fails_with net w (signMessage privateKey message) c.
Proof.
  unfold sign_input_failure, signMessage, fails_with.
  destruct (truthy privateKey) eqn:Hkey; simpl.
  2:{ intros [= <-]. eexists. split; reflexivity. }
  destruct (message =? EmptyString) eqn:Hmsg.
  { intros [= <-]. eexists. split; reflexivity. }
  destruct (is_hex64 (strip_0x (the_string privateKey))) eqn:H64; simpl.
  { discriminate. }
  intros [= <-].
  destruct (test_hex (strip_0x (the_string privateKey))) eqn:Hhex; simpl.
  - destruct (wallet_key_length _ (not_hex64_length _ H64 Hhex)) as [e He].
    simpl in He. rewrite He. simpl. eexists. split; reflexivity.
  - eexists. split; reflexivity.
Qed.

End Signer.

Lemma signMessage_failure_class_witness :
  fails_with Reference.service Reference.empty_world
             (signMessage (R := Reference.platform) (Some "not-hex") "message")
             InvalidKeyFormat.
Proof.
  apply (signMessage_failure_class (R := Reference.platform)
           Reference_wallet_key_length).
  reflexivity.
Defined.

(** ** The [run] of composed calls *)

Lemma run_bind {A B : Type} (net : Transport) (p : Async A) (f : A -> Async B) (w : World) :
  run net (bind p f) w =
  match run net p w with
  | (inl e, w') => (inl e, w')
  | (inr a, w') => run net (f a) w'
  end.
Proof.
  revert w. induction p as [a | e | k IH | c k IH | r k IH | k IH | l k IH];
    intros w; simpl; auto.
Qed.

Lemma run_await {A : Type} (net : Transport) (p : Async A) (w : World) :
  run net (await p) w = run net p w.
Proof.
  revert w. induction p as [a | e | k IH | c k IH | r k IH | k IH | l k IH];
    intros w; simpl; auto.
Qed.

Lemma run_try_catch {A : Type} (net : Transport) (p : Async A) (h : Thrown -> Async A)
      (w : World) :
  run net (try_catch p h) w =
  match run net p w with
  | (inl e, w') => run net (h e) w'
  | (inr a, w') => (inr a, w')
  end.
Proof.
  revert w. induction p as [a | e | k IH | c k IH | r k IH | k IH | l k IH];
    intros w; simpl; auto.
Qed.

Lemma run_settle {A : Type} (net : Transport) (x : Thrown + A) (w : World) :
  run net (settle x) w = (x, w).
Proof. destruct x; reflexivity. Qed.

Lemma run_await_fetch {A : Type} (net : Transport) (r : Request) (k : Response -> Async A)
      (w : World) :
  run net (response <- await (fetch r) ;; k response) w
  = match net (calls w ++ [r])%list r with
    | inl e => (inl e, log_call r w)
    | inr response => run net (k response) (log_call r w)
    end.
Proof.
  rewrite run_bind, run_await. unfold fetch. cbn [run log_call calls].
  destruct (net (calls w ++ [r])%list r); reflexivity.
Qed.

(** *** Calls that leave the cache alone *)

Create HintDb cache_free.
#[local] Hint Constructors cache_free : cache_free.

Lemma cache_free_bind {A B : Type} (p : Async A) (f : A -> Async B) :
  cache_free p -> (forall a, cache_free (f a)) -> cache_free (bind p f).
Proof.
  intros Hp Hf. induction Hp; simpl; auto with cache_free.
Qed.

Lemma cache_free_await {A : Type} (p : Async A) :
  cache_free p -> cache_free (await p).
Proof.
  intros Hp. induction Hp; simpl; auto with cache_free.
Qed.

Lemma cache_free_try_catch {A : Type} (p : Async A) (h : Thrown -> Async A) :
  cache_free p -> (forall e, cache_free (h e)) -> cache_free (try_catch p h).
Proof.
  intros Hp Hh. induction Hp; simpl; auto with cache_free.
Qed.

Lemma cache_free_settle {A : Type} (x : Thrown + A) : cache_free (settle x).
Proof. destruct x; simpl; auto with cache_free. Qed.

#[local] Hint Resolve cache_free_bind cache_free_await cache_free_try_catch
  cache_free_settle : cache_free.

Lemma run_cache_free {A : Type} (net : Transport) (p : Async A) (w : World) :
  cache_free p -> cachedTokens (snd (run net p w)) = cachedTokens w.
Proof.
  intros Hp. revert w.
  induction Hp as [a | e | r k _ IH | k _ IH | l k _ IH]; intros w; simpl; auto.
  - rewrite IH. reflexivity.
  - rewrite IH. reflexivity.
Qed.

Section AuthSession.

Context {R : Runtime}.

Lemma cache_free_new_URL (s : string) : cache_free (new_URL s).
Proof. unfold new_URL. destruct (URL_canParse s); auto with cache_free. Qed.

Lemma cache_free_fetch (r : Request) : cache_free (fetch r).
Proof. constructor. intros [e | resp]; auto with cache_free. Qed.

Lemma cache_free_response_text (r : Response) : cache_free (response_text r).
Proof. unfold response_text. auto with cache_free. Qed.

#[local] Hint Resolve cache_free_new_URL cache_free_fetch cache_free_response_text
  : cache_free.

Lemma cache_free_getChallenge (config : AuthConfig) : cache_free (getChallenge config).
Proof.
  unfold getChallenge.
  apply cache_free_bind; [auto with cache_free | intros u].
  apply cache_free_bind; [auto with cache_free | intros resp].
  destruct (negb (ok resp)); auto 6 with cache_free.
Qed.

Lemma cache_free_login (config : AuthConfig) (message signature : string) :
  cache_free (login config message signature).
Proof.
  unfold login.
  apply cache_free_bind; [auto with cache_free | intros u].
  apply cache_free_bind; [auto with cache_free | intros resp].
  destruct (negb (ok resp)); auto 6 with cache_free.
Qed.

Lemma cache_free_signMessage (privateKey : option string) (message : string) :
  cache_free (signMessage privateKey message).
Proof.
  unfold signMessage.
  destruct (negb (truthy privateKey)); [auto with cache_free |].
  destruct (message =? EmptyString); [auto with cache_free |].
  apply cache_free_try_catch; [| auto with cache_free].
  destruct (negb (test_hex _)); auto 8 with cache_free.
Qed.

#[local] Hint Resolve cache_free_getChallenge cache_free_login cache_free_signMessage
  : cache_free.

Lemma cache_free_authenticate (config : AuthConfig) : cache_free (authenticate config).
Proof.
  unfold authenticate.
  destruct (negb (truthy (privateKey config))); auto 8 with cache_free.
Qed.

(** What one call of [getAuthTokens] does, by the state of the cache. *)
Lemma run_getAuthTokens (net : Transport) (config : MefsConfig) (w : World) :
  run net (getAuthTokens config) w =
  match cachedTokens w with
  | Some tokens => (inr tokens, w)
  | None =>
      match run net (authenticate config) w with
      | (inl e, w') => (inl e, w')
      | (inr tokens, w') => (inr tokens, set_cache (Some tokens) w')
      end
  end.
Proof.
  unfold getAuthTokens. simpl.
  destruct (cachedTokens w) as [tokens |]; [reflexivity |].
  rewrite run_bind, run_await.
  destruct (run net (authenticate config) w) as [[e | tokens] w']; reflexivity.
Qed.

End AuthSession.

(** ** Which requests a call issues *)

Lemma slice_append (s t : string) : slice (String.length s) (s ++ t) = t.
Proof. induction s as [| c s IH]; simpl; auto. Qed.

Lemma length_append (s t : string) :
  String.length (s ++ t) = String.length s + String.length t.
Proof. induction s as [| c s IH]; simpl; auto. Qed.

Lemma ends_with_append (s suffix : string) : ends_with suffix (s ++ suffix) = true.
Proof.
  unfold ends_with. rewrite length_append.
  replace (String.length s + String.length suffix - String.length suffix)
    with (String.length s) by lia.
  rewrite slice_append, String.eqb_refl, andb_true_r.
  apply Nat.leb_le. lia.
Qed.

Lemma href_searchParams_set (k v : string) (u : URL) :
  href (searchParams_set k v u) = href u.
Proof. reflexivity. Qed.

Section Requests.

Context {R : Runtime}.

(** [getChallenge] either fails on the URL without a request, or issues one
    request, to the challenge endpoint. *)
Lemma getChallenge_calls (net : Transport) (config : AuthConfig) (w : World) :
  (exists e, run net (getChallenge config) w = (inl e, w))
  \/ (exists c, snd (run net (getChallenge config) w) = log_call c w
                /\ is_challenge c = true /\ is_login c = false).
Proof.
  unfold getChallenge, new_URL.
  destruct (URL_canParse (apiBaseUrl config ++ "/challenge")); simpl.
  2:{ left. eexists. reflexivity. }
  right. eexists. split.
  - match goal with
    | |- context [net ?h ?r] => destruct (net h r) as [e | resp]
    end; simpl; [reflexivity |].
    destruct (ok resp); simpl; reflexivity.
  - unfold is_challenge, is_login. simpl. split; [| reflexivity].
    destruct (truthy (address config)), (chainId config) as [n |];
      try destruct (truthy_number (Some n));
      rewrite ?href_searchParams_set; apply ends_with_append.
Qed.

(** [login] either fails on the URL without a request, or issues one
    request, to the login endpoint. *)
Lemma login_calls (net : Transport) (config : AuthConfig) (message signature : string)
      (w : World) :
  (exists e, run net (login config message signature) w = (inl e, w))
  \/ (exists l, snd (run net (login config message signature) w) = log_call l w
                /\ is_login l = true /\ is_challenge l = false).
Proof.
  unfold login, new_URL.
  destruct (URL_canParse (apiBaseUrl config ++ "/login")); simpl.
  2:{ left. eexists. reflexivity. }
  right. eexists. split.
  - match goal with
    | |- context [net ?h ?r] => destruct (net h r) as [e | resp]
    end; simpl; [reflexivity |].
    destruct (ok resp); simpl; [| reflexivity].
    destruct (json_LoginResponse (bodyText resp)); reflexivity.
  - unfold is_challenge, is_login. simpl. split; [| reflexivity].
    apply ends_with_append.
Qed.

(** The signer works on its arguments alone. *)
Lemma signMessage_world (net : Transport) (privateKey : option string) (message : string)
      (w : World) :
  snd (run net (signMessage privateKey message) w) = w.
Proof.
  unfold signMessage.
  destruct (negb (truthy privateKey)); [reflexivity |].
  destruct (message =? EmptyString); [reflexivity |].
  rewrite run_try_catch.
  destruct (negb (test_hex (strip_0x (the_string privateKey)))); simpl; [reflexivity |].
  destruct (ethers_Wallet _) as [e | wallet]; simpl; [reflexivity |].
  destruct (Wallet_signMessage wallet message); reflexivity.
Qed.

(** A successful [authenticate] has made one round trip: a challenge request
    followed by a login request, and nothing else. *)
Lemma authenticate_round_trip (net : Transport) (config : AuthConfig) (w w' : World)
      (tokens : AuthTokens) :
  run net (authenticate config) w = (inr tokens, w') ->
  exists c l, w' = log_call l (log_call c w)
              /\ is_challenge c = true /\ is_login c = false
              /\ is_login l = true /\ is_challenge l = false.
Proof.
  unfold authenticate.
  destruct (negb (truthy (privateKey config))); [discriminate |].
  rewrite run_bind, run_await.
  destruct (getChallenge_calls net config w) as [[e He] | (c & Hc & Hc1 & Hc2)].
  { rewrite He. discriminate. }
  destruct (run net (getChallenge config) w) as [[e | message] w1]; [discriminate |].
  simpl in Hc. subst w1.
  rewrite run_bind, run_await.
  pose proof (signMessage_world net (privateKey config) message (log_call c w)) as Hs.
  destruct (run net (signMessage (privateKey config) message) (log_call c w))
    as [[e | signature] w2]; [discriminate |].
  simpl in Hs. subst w2.
  rewrite run_bind, run_await.
  destruct (login_calls net config message signature (log_call c w))
    as [[e He] | (l & Hl & Hl1 & Hl2)].
  { rewrite He. discriminate. }
  destruct (run net (login config message signature) (log_call c w))
    as [[e | loginResponse] w3]; [discriminate |].
  simpl in Hl. subst w3. simpl. intros [= <- <-].
  exists c, l. auto.
Qed.

End Requests.

(** ** The session: [getAuthTokens] and the cache *)

Section Session.

Context {R : Runtime}.

(** C2: whatever the cache held before, a call of [getAuthTokens] that fails
    leaves the cache as it was, and a call that succeeds leaves in it the
    pair it returns.  A call fails exactly when the cache is empty and
    [authenticate] fails, and then the cache is still empty; when the cache
    is empty and [authenticate] succeeds, its pair is the one cached. *)
Theorem getAuthTokens_cache (net : Transport) (config : MefsConfig) (w : World) :
  match run net (getAuthTokens config) w with
  | (inl _, w') => cachedTokens w' = cachedTokens w
  | (inr tokens, w') => cachedTokens w' = Some tokens
  end
  /\ match cachedTokens w with
     | Some held => run net (getAuthTokens config) w = (inr held, w)
     | None =>
         match run net (authenticate config) w with
         | (inl e, w') =>
             run net (getAuthTokens config) w = (inl e, w') /\ cachedTokens w' = None
         | (inr tokens, w') =>
             run net (getAuthTokens config) w = (inr tokens, set_cache (Some tokens) w')
         end
     end.
Proof.
  rewrite run_getAuthTokens.
  pose proof (run_cache_free net (authenticate config) w (cache_free_authenticate config))
    as Hfree.
  destruct (cachedTokens w) as [held |] eqn:Hc.
  - split; [exact Hc | reflexivity].
  - destruct (run net (authenticate config) w) as [[e | tokens] w']; simpl in *; auto.
Qed.

(** C3: a session that holds a token pair answers [getAuthTokens] with that
    pair, at once and with no request; so of two calls in sequence from an
    empty cache, the first succeeding, the second returns the same pair and
    the two together have issued one challenge request followed by one
    login request. *)
Theorem getAuthTokens_cache_hit (net : Transport) (config : MefsConfig) (w : World) :
  (forall held, cachedTokens w = Some held ->
     run net (getAuthTokens config) w = (inr held, w)
     /\ advance (getAuthTokens config) w = (Settled (inr held), w))
  /\ (forall tokens w1,
        cachedTokens w = None ->
        run net (getAuthTokens config) w = (inr tokens, w1) ->
        run net (getAuthTokens config) w1 = (inr tokens, w1)
        /\ exists c l, calls w1 = (calls w ++ [c; l])%list
                       /\ is_challenge c = true /\ is_login l = true
                       /\ count_calls is_challenge w1 = count_calls is_challenge w + 1
                       /\ count_calls is_login w1 = count_calls is_login w + 1).
Proof.
  split.
  - intros held Hc. rewrite run_getAuthTokens. unfold getAuthTokens. simpl.
    rewrite Hc. split; reflexivity.
  - intros tokens w1 Hc Hrun.
    rewrite run_getAuthTokens, Hc in Hrun.
    destruct (run net (authenticate config) w) as [[e | tokens'] w'] eqn:Hauth;
      [discriminate |].
    injection Hrun as <- <-.
    split; [rewrite run_getAuthTokens; reflexivity |].
    destruct (authenticate_round_trip net config w w' tokens' Hauth)
      as (c & l & -> & Hc1 & Hc2 & Hl1 & Hl2).
    exists c, l. unfold count_calls. simpl.
    rewrite <- app_assoc. simpl.
    repeat split; auto.
    + rewrite filter_app, length_app. simpl. rewrite Hc1, Hl2. reflexivity.
    + rewrite filter_app, length_app. simpl. rewrite Hc2, Hl1. reflexivity.
Qed.

(** C4, as the code has it: without a private key [getAuthTokens] issues no
    request, whatever the cache holds.  On an empty cache it fails with
    [MissingPrivateKey], before the challenge request, the signer and the
    login request are reached; a session that holds a token pair returns
    that pair, the key not being looked at. *)
Theorem getAuthTokens_missing_key (net : Transport) (config : MefsConfig) (w : World) :
  truthy (privateKey config) = false ->
  calls (snd (run net (getAuthTokens config) w)) = calls w
  /\ (cachedTokens w = None ->
      run net (getAuthTokens config) w
      = (inl (new_Error "Private key is required for authentication"), w)
      /\ fails_with net w (getAuthTokens config) MissingPrivateKey)
  /\ (forall held, cachedTokens w = Some held ->
      run net (getAuthTokens config) w = (inr held, w)).
Proof.
  intros Hkey.
  assert (Hauth : run net (authenticate config) w
                  = (inl (new_Error "Private key is required for authentication"), w)).
  { unfold authenticate. rewrite Hkey. reflexivity. }
  rewrite run_getAuthTokens, Hauth.
  destruct (cachedTokens w) as [held |] eqn:Hc.
  - split; [reflexivity |]. split; [discriminate |].
    intros held' [= <-]. reflexivity.
  - split; [reflexivity |]. split; [| discriminate].
    intros _. split; [reflexivity |].
    unfold fails_with.
    exists (new_Error "Private key is required for authentication").
    split; [| reflexivity].
    rewrite run_getAuthTokens, Hc, Hauth. reflexivity.
Qed.

End Session.

Lemma getAuthTokens_cache_hit_witness :
  let first := run Reference.service
                   (getAuthTokens (R := Reference.platform) Reference.config)
                   Reference.empty_world in
  run Reference.service (getAuthTokens (R := Reference.platform) Reference.config)
      (snd first)
  = (inr {| accessToken := "access-1"; refreshToken := "refresh-1" |}, snd first)
  /\ exists c l, calls (snd first) = ([] ++ [c; l])%list
                 /\ is_challenge c = true /\ is_login l = true
                 /\ count_calls is_challenge (snd first) = 0 + 1
                 /\ count_calls is_login (snd first) = 0 + 1.
Proof.
  intros first.
  apply (proj2 (getAuthTokens_cache_hit (R := Reference.platform) Reference.service
                  Reference.config Reference.empty_world)
               {| accessToken := "access-1"; refreshToken := "refresh-1" |} (snd first));
    reflexivity.
Defined.

Lemma getAuthTokens_missing_key_witness :
  fails_with Reference.service Reference.empty_world
             (getAuthTokens (R := Reference.platform) Cases.keyless) MissingPrivateKey.
Proof.
  apply (getAuthTokens_missing_key (R := Reference.platform) Reference.service
           Cases.keyless Reference.empty_world); reflexivity.
Defined.

(** C4 as stated fails on a session that holds a token pair: the cache is
    consulted before the key, so the call succeeds with the held pair. *)
Lemma getAuthTokens_missing_key_cached :
  privateKey Cases.keyless = None
  /\ run Reference.service (getAuthTokens (R := Reference.platform) Cases.keyless)
         Cases.authenticated_world
     = (inr Cases.held, Cases.authenticated_world)
  /\ ~ fails_with Reference.service Cases.authenticated_world
         (getAuthTokens (R := Reference.platform) Cases.keyless) MissingPrivateKey.
Proof.
  split; [reflexivity |]. split; [reflexivity |].
  intros (e & Hrun & _). discriminate Hrun.
Qed.

(** ** Calls in flight together *)

Create HintDb round_trip.
#[local] Hint Constructors round_trip : round_trip.

Lemma round_trip_bind {A B : Type} (n m : nat) (p : Async A) (f : A -> Async B) :
  round_trip n p -> (forall a, round_trip m (f a)) -> round_trip (n + m) (bind p f).
Proof.
  intros Hp Hf.
  induction Hp; simpl; auto with round_trip.
Qed.

Lemma round_trip_await {A : Type} (n : nat) (p : Async A) :
  round_trip n p -> round_trip n (await p).
Proof.
  intros Hp.
  induction Hp; simpl; auto with round_trip.
Qed.

(** A [try] whose [catch] throws again. *)
Lemma round_trip_try_rethrow {A : Type} (n : nat) (p : Async A) (h : Thrown -> Thrown) :
  round_trip n p -> round_trip n (try_catch p (fun e => Throw (h e))).
Proof.
  intros Hp.
  induction Hp; simpl; auto with round_trip.
Qed.

Lemma round_trip_settle {A : Type} (x : Thrown + A) : round_trip 0 (settle x).
Proof. destruct x; constructor. Qed.

Lemma count_calls_log (f : Request -> bool) (r : Request) (w : World) :
  count_calls f (log_call r w) = count_calls f w + (if f r then 1 else 0).
Proof.
  unfold count_calls. simpl. rewrite filter_app, length_app. simpl.
  destruct (f r); reflexivity.
Qed.

Lemma count_calls_set_cache (f : Request -> bool) (c : option AuthTokens) (w : World) :
  count_calls f (set_cache c w) = count_calls f w.
Proof. reflexivity. Qed.

Lemma count_calls_log_stderr (f : Request -> bool) (l : string) (w : World) :
  count_calls f (log_stderr l w) = count_calls f w.
Proof. reflexivity. Qed.

(** Running a call to its next suspension point spends what it logs. *)
Lemma advance_round_trip {A : Type} (n : nat) (p : Async A) (w : World) :
  round_trip n p ->
  exists m, task_round_trip m (fst (advance p w))
            /\ count_calls is_login (snd (advance p w)) + m = count_calls is_login w + n
            /\ count_calls is_challenge (snd (advance p w)) = count_calls is_challenge w.
Proof.
  intros Hp. revert w.
  induction Hp as [a | n e | n k _ IH | n c k _ IH | n r k Hc Hl Hk _ | n r k Hc Hl Hk _
                   | n k Hk _ | n l k _ IH]; intros w; simpl.
  - exists 0. auto.
  - exists n. auto.
  - apply IH.
  - destruct (IH (set_cache c w)) as (m & H1 & H2 & H3). exists m. auto.
  - exists n. rewrite !count_calls_log, Hc, Hl. repeat split; auto; lia.
  - exists n. rewrite !count_calls_log, Hc, Hl. repeat split; auto; lia.
  - exists n. auto.
  - destruct (IH (log_stderr l w)) as (m & H1 & H2 & H3). exists m. auto.
Qed.

Lemma resume_round_trip {A : Type} (net : Transport) (n : nat) (t : Task A) (w : World) :
  task_round_trip n t ->
  exists m, task_round_trip m (fst (resume net t w))
            /\ count_calls is_login (snd (resume net t w)) + m = count_calls is_login w + n
            /\ count_calls is_challenge (snd (resume net t w)) = count_calls is_challenge w.
Proof.
  destruct t as [[e | a] | r k | k]; simpl; intros Ht.
  - exists n. auto.
  - exists n. auto.
  - apply advance_round_trip, Ht.
  - apply advance_round_trip, Ht.
Qed.

Lemma resume_nth_round_trip {A : Type} (net : Transport) (i : nat) (ns : list nat)
      (ts : list (Task A)) (w : World) :
  Forall2 task_round_trip ns ts ->
  exists ms, Forall2 task_round_trip ms (fst (resume_nth net i ts w))
             /\ count_calls is_login (snd (resume_nth net i ts w)) + list_sum ms
                = count_calls is_login w + list_sum ns
             /\ count_calls is_challenge (snd (resume_nth net i ts w))
                = count_calls is_challenge w.
Proof.
  intros Hts. revert i.
  induction Hts as [| n t ns ts Ht Hts IH]; intros i.
  - exists []. destruct i; simpl; auto.
  - destruct i as [| i]; simpl.
    + destruct (resume_round_trip net n t w Ht) as (m & H1 & H2 & H3).
      destruct (resume net t w) as [t' w']. simpl in *.
      exists (m :: ns). simpl. repeat split; auto. lia.
    + destruct (IH i) as (ms & H1 & H2 & H3).
      destruct (resume_nth net i ts w) as [ts' w']. simpl in *.
      exists (n :: ms). simpl. repeat split; auto. lia.
Qed.

Lemma event_loop_round_trip {A : Type} (net : Transport) (schedule : list nat)
      (ns : list nat) (ts : list (Task A)) (w : World) :
  Forall2 task_round_trip ns ts ->
  exists ms, Forall2 task_round_trip ms (fst (event_loop net schedule ts w))
             /\ count_calls is_login (snd (event_loop net schedule ts w)) + list_sum ms
                = count_calls is_login w + list_sum ns
             /\ count_calls is_challenge (snd (event_loop net schedule ts w))
                = count_calls is_challenge w.
Proof.
  revert ns ts w.
  induction schedule as [| i rest IH]; intros ns ts w Hts; simpl.
  - exists ns. auto.
  - destruct (resume_nth_round_trip net i ns ts w Hts) as (ms & H1 & H2 & H3).
    destruct (resume_nth net i ts w) as [ts' w']. simpl in *.
    destruct (IH ms ts' w' H1) as (ms' & H1' & H2' & H3').
    exists ms'. repeat split; auto; lia.
Qed.

Lemma resolved_round_trips {A : Type} (ns : list nat) (ts : list (Task A)) :
  Forall2 task_round_trip ns ts -> Forall resolved ts -> list_sum ns = 0.
Proof.
  induction 1 as [| n t ns ts Ht Hts IH]; intros Hall; [reflexivity |].
  inversion Hall as [| ? ? [a ->] Hrest]; subst.
  simpl in Ht. subst n. simpl. auto.
Qed.

Lemma advance_bind {A B : Type} (p : Async A) (f : A -> Async B) (w : World) :
  advance (bind p f) w =
  match advance p w with
  | (Settled (inr a), w') => advance (f a) w'
  | (Settled (inl e), w') => (Settled (inl e), w')
  | (AwaitingResponse r k, w') => (AwaitingResponse r (fun x => bind (k x) f), w')
  | (Suspended k, w') => (Suspended (bind k f), w')
  end.
Proof.
  revert w. induction p as [a | e | k IH | c k IH | r k IH | k IH | l k IH];
    intros w; simpl; auto.
Qed.

Lemma advance_await {A : Type} (p : Async A) (w : World) :
  advance (await p) w =
  match advance p w with
  | (Settled r, w') => (Suspended (settle r), w')
  | (AwaitingResponse r k, w') => (AwaitingResponse r (fun x => await (k x)), w')
  | (Suspended k, w') => (Suspended (await k), w')
  end.
Proof.
  revert w. induction p as [a | e | k IH | c k IH | r k IH | k IH | l k IH];
    intros w; simpl; auto.
Qed.

Lemma starts_with_bind {A B : Type} (c : Request) (n m : nat) (p : Async A)
      (f : A -> Async B) :
  starts_with c n p -> (forall a, round_trip m (f a)) -> starts_with c (n + m) (bind p f).
Proof.
  intros (k & Hadv & Hk) Hf.
  exists (fun x => bind (k x) f). split.
  - intros w. rewrite advance_bind, Hadv. reflexivity.
  - intros x. apply round_trip_bind; auto.
Qed.

Lemma starts_with_await {A : Type} (c : Request) (n : nat) (p : Async A) :
  starts_with c n p -> starts_with c n (await p).
Proof.
  intros (k & Hadv & Hk).
  exists (fun x => await (k x)). split.
  - intros w. rewrite advance_await, Hadv. reflexivity.
  - intros x. apply round_trip_await; auto.
Qed.

Lemma starts_with_fetch (c : Request) : starts_with c 0 (fetch c).
Proof.
  eexists. split; [intros w; reflexivity |].
  intros [e | resp]; auto with round_trip.
Qed.

Lemma event_loop_settled {A : Type} (net : Transport) (m : nat) (r : Thrown + A) (w : World) :
  event_loop net (repeat 0 m) [Settled r] w = ([Settled r], w).
Proof. induction m as [| m IH]; simpl; auto. Qed.

(** A call on its own: resumed often enough, it settles with the outcome
    of [run], in the world [run] leaves. *)
Lemma event_loop_alone {A : Type} (net : Transport) (p : Async A) (w : World) :
  exists n, forall m, n <= m ->
    event_loop net (repeat 0 m) [fst (advance p w)] (snd (advance p w))
    = ([Settled (fst (run net p w))], snd (run net p w)).
Proof.
  revert w. induction p as [a | e | k IH | c k IH | r k IH | k IH | l k IH]; intros w.
  - exists 0. intros m _. apply event_loop_settled.
  - exists 0. intros m _. apply event_loop_settled.
  - apply IH.
  - apply IH.
  - destruct (IH (net (calls (log_call r w)) r) (log_call r w)) as [n Hn].
    exists (S n). intros [| m] Hm; [lia |].
    cbn [repeat event_loop resume_nth advance fst snd resume run].
    match goal with
    | |- context [advance ?q ?w1] => rewrite (surjective_pairing (advance q w1))
    end.
    apply Hn. lia.
  - destruct (IH w) as [n Hn].
    exists (S n). intros [| m] Hm; [lia |].
    cbn [repeat event_loop resume_nth advance fst snd resume run].
    rewrite (surjective_pairing (advance k w)).
    apply Hn. lia.
  - apply IH.
Qed.

Section InFlight.

Context {R : Runtime}.

Lemma round_trip_response_text (r : Response) : round_trip 0 (response_text r).
Proof. unfold response_text. simpl. auto with round_trip. Qed.

Lemma round_trip_signMessage (privateKey : option string) (message : string) :
  round_trip 0 (signMessage privateKey message).
Proof.
  unfold signMessage.
  destruct (negb (truthy privateKey)); [auto with round_trip |].
  destruct (message =? EmptyString); [auto with round_trip |].
  apply (round_trip_try_rethrow 0 _
           (fun e => new_Error ("Failed to sign message: " ++ message_or_String e))).
  destruct (negb (test_hex _)); [auto with round_trip |].
  apply (round_trip_bind 0 0); [apply round_trip_settle | intros wallet].
  apply (round_trip_bind 0 0); [| auto with round_trip].
  apply round_trip_await, round_trip_settle.
Qed.

Lemma round_trip_login (config : AuthConfig) (message signature : string) :
  round_trip 1 (login config message signature).
Proof.
  unfold login, new_URL.
  destruct (URL_canParse (apiBaseUrl config ++ "/login")); cbn [bind];
    [| auto with round_trip].
  apply (round_trip_bind 1 0).
  - apply round_trip_await. unfold fetch. apply rt_Fetch_login.
    + reflexivity.
    + unfold is_login. cbn [method url href]. apply ends_with_append.
    + intros [e | resp]; auto with round_trip.
  - intros resp. destruct (negb (ok resp)).
    + apply (round_trip_bind 0 0); [apply round_trip_response_text |].
      auto with round_trip.
    + apply round_trip_await, round_trip_settle.
Qed.

(** [getChallenge] on a well-formed base URL sends its request at once. *)
Lemma starts_with_getChallenge (config : AuthConfig) :
  URL_canParse (apiBaseUrl config ++ "/challenge") = true ->
  exists c, starts_with c 0 (getChallenge config)
            /\ is_challenge c = true /\ is_login c = false.
Proof.
  intros Hurl. unfold getChallenge, new_URL. rewrite Hurl. cbn [bind].
  eexists. split; [| split].
  - apply (starts_with_bind _ 0 0).
    + apply starts_with_await, starts_with_fetch.
    + intros resp. destruct (negb (ok resp)).
      * apply (round_trip_bind 0 0); [apply round_trip_response_text |].
        auto with round_trip.
      * apply round_trip_response_text.
  - unfold is_challenge. cbn [method url].
    destruct (truthy (address config)), (chainId config) as [n |];
      try destruct (truthy_number (Some n));
      rewrite ?href_searchParams_set; apply ends_with_append.
  - reflexivity.
Qed.

(** A call that finds the cache empty, with a key and a well-formed base
    URL, sends its challenge request in the turn it is made in; what is left
    of it is one login request away from returning. *)
Lemma getAuthTokens_starts (config : MefsConfig) :
  truthy (privateKey config) = true ->
  URL_canParse (apiBaseUrl config ++ "/challenge") = true ->
  exists c k,
    (forall w, cachedTokens w = None ->
               advance (getAuthTokens config) w = (AwaitingResponse c k, log_call c w))
    /\ is_challenge c = true /\ is_login c = false
    /\ forall x, round_trip 1 (k x).
Proof.
  intros Hkey Hurl.
  destruct (starts_with_getChallenge config Hurl) as (c & Hstart & Hc1 & Hc2).
  assert (Hauth : starts_with c 1 (await (authenticate config))).
  { apply starts_with_await. unfold authenticate. rewrite Hkey. cbn [negb].
    apply (starts_with_bind c 0 1); [apply starts_with_await, Hstart | intros message].
    apply (round_trip_bind 0 1);
      [apply round_trip_await, round_trip_signMessage | intros signature].
    apply (round_trip_bind 1 0); [apply round_trip_await, round_trip_login |].
    auto with round_trip. }
  destruct (starts_with_bind c 1 0 _
              (fun tokens => WriteCache (Some tokens) (Ret tokens)) Hauth)
    as (k & Hadv & Hk); [auto with round_trip |].
  exists c, k. repeat split; auto.
  intros w Hc. unfold getAuthTokens. cbn [advance]. rewrite Hc. apply Hadv.
Qed.

End InFlight.

Section SingleFlight.

Context {R : Runtime}.

Lemma start_all_getAuthTokens (config : MefsConfig) (N : nat) (w : World) :
  truthy (privateKey config) = true ->
  URL_canParse (apiBaseUrl config ++ "/challenge") = true ->
  cachedTokens w = None ->
  let started := start_all (repeat (getAuthTokens config) N) w in
  Forall2 task_round_trip (repeat 1 N) (fst started)
  /\ count_calls is_challenge (snd started) = count_calls is_challenge w + N
  /\ count_calls is_login (snd started) = count_calls is_login w
  /\ cachedTokens (snd started) = None.
Proof.
  intros Hkey Hurl.
  destruct (getAuthTokens_starts config Hkey Hurl) as (c & k & Hadv & Hc1 & Hc2 & Hk).
  revert w. induction N as [| N IH]; intros w Hc; cbn [start_all repeat].
  - simpl. repeat split; auto.
  - rewrite (Hadv w Hc).
    specialize (IH (log_call c w) Hc). cbv zeta in IH.
    destruct (start_all (repeat (getAuthTokens config) N) (log_call c w)) as [ts w'].
    cbn [fst snd] in *. destruct IH as (H1 & H2 & H3 & H4).
    rewrite !count_calls_log, Hc1 in H2. rewrite !count_calls_log, Hc2 in H3.
    repeat split; auto; try lia.
Qed.

(** C1, as the code has it: [N] calls of [getAuthTokens] made in one turn
    against an empty cache, with a key and a well-formed base URL, send [N]
    challenge requests in that turn, one for each call.  However the event
    loop goes on to resume them, no further challenge request follows, each
    call sends at most one login request, and the calls that have returned
    have each sent their own: when all [N] have returned, the login endpoint
    has been called [N] times. *)
Theorem getAuthTokens_in_flight (net : Transport) (config : MefsConfig) (N : nat)
        (schedule : list nat) (w : World) :
  truthy (privateKey config) = true ->
  URL_canParse (apiBaseUrl config ++ "/challenge") = true ->
  cachedTokens w = None ->
  let started := start_all (repeat (getAuthTokens config) N) w in
  let finished := event_loop net schedule (fst started) (snd started) in
  count_calls is_challenge (snd started) = count_calls is_challenge w + N
  /\ count_calls is_challenge (snd finished) = count_calls is_challenge w + N
  /\ count_calls is_login (snd finished) <= count_calls is_login w + N
  /\ (Forall resolved (fst finished) ->
      count_calls is_login (snd finished) = count_calls is_login w + N).
Proof.
  intros Hkey Hurl Hc started finished.
  destruct (start_all_getAuthTokens config N w Hkey Hurl Hc) as (H1 & H2 & H3 & _).
  fold started in H1, H2, H3.
  destruct (event_loop_round_trip net schedule _ _ (snd started) H1)
    as (ms & Hms & Hlogin & Hchallenge).
  fold finished in Hms, Hlogin, Hchallenge.
  assert (Hsum : list_sum (repeat 1 N) = N).
  { clear. induction N; simpl; auto. }
  rewrite Hsum, H3 in Hlogin. rewrite H2 in Hchallenge.
  repeat split; auto; try lia.
  intros Hall. rewrite (resolved_round_trips ms _ Hms Hall) in Hlogin. lia.
Qed.

End SingleFlight.

(** C1 as stated fails: two calls against an empty cache send two challenge
    requests and two login requests, and resolve to different token pairs. *)
Lemma getAuthTokens_two_in_flight :
  cachedTokens Reference.empty_world = None
  /\ count_calls is_challenge (snd InFlightCases.started) = 2
  /\ count_calls is_challenge (snd InFlightCases.finished) = 2
  /\ count_calls is_login (snd InFlightCases.finished) = 2
  /\ map settled_with (fst InFlightCases.finished)
     = [Some (inr {| accessToken := "access-1"; refreshToken := "refresh-1" |});
        Some (inr {| accessToken := "access-2"; refreshToken := "refresh-2" |})]
  /\ count_calls is_challenge (snd InFlightCases.finished) <> 1
  /\ count_calls is_login (snd InFlightCases.finished) <> 1.
Proof. vm_compute. repeat split; discriminate. Qed.

Lemma getAuthTokens_in_flight_witness :
  count_calls is_challenge (snd InFlightCases.started) = 0 + 2
  /\ count_calls is_challenge (snd InFlightCases.finished) = 0 + 2
  /\ count_calls is_login (snd InFlightCases.finished) <= 0 + 2
  /\ count_calls is_login (snd InFlightCases.finished) = 0 + 2.
Proof.
  destruct (getAuthTokens_in_flight (R := Reference.platform) Reference.service
              Reference.config 2 InFlightCases.first_then_second Reference.empty_world
              eq_refl eq_refl eq_refl) as (H1 & H2 & H3 & H4).
  split; [exact H1 | split; [exact H2 | split; [exact H3 |]]].
  apply H4. repeat constructor; eexists; reflexivity.
Defined.

(** ** Storage adapter *)

Lemma truthy_Some (o : option string) :
  truthy o = true -> o = Some (the_string o) /\ the_string o <> EmptyString.
Proof.
  destruct o as [s |]; simpl; [| discriminate].
  intros H. split; [reflexivity |].
  intros ->. discriminate H.
Qed.








Section StorageAdapter.

Context {R : Runtime}.


(** C7, as the code has it: [uploadFile] sends one POST to [/mefs/] with the
    header [Authorization: Bearer <accessToken>] and a multipart form whose
    first entry is the file bytes under [file] with the given filename; the
    form has the field [key] exactly when [options.key] is a non-empty
    string, [public] (with the value [true]) exactly when [options.public]
    is [true], and [user] exactly when [options.user] is a non-empty string,
    and it has nothing else.  A response that is not [ok] makes the call
    fail with [Failed to upload file: <status> <statusText> - <body>]; an
    [ok] response makes it return the decoded JSON body, which holds
    [Mid]. *)
Theorem uploadFile_request (net : Transport) (config : ApiConfig) (file : Bytes)
        (filename : string) (options : UploadOptions) (w : World) :
  URL_canParse (api_apiBaseUrl config ++ "/mefs/") = true ->
  exists entries,
    let request :=
      {| method := POST;
         url := {| href := api_apiBaseUrl config ++ "/mefs/";
                   searchParams := URL_searchParams (api_apiBaseUrl config ++ "/mefs/") |};
         headers := [("Authorization", "Bearer " ++ api_accessToken config)];
         body := FormBody entries |} in
    let outcome := run net (uploadFile config file filename options) w in
    snd outcome = log_call request w
    /\ (exists others, entries = FileEntry "file" file "application/octet-stream" filename
                                 :: others
                       /\ has_field "file" others = false)
    /\ has_field "key" entries = truthy (opt_key options)
    /\ has_field "public" entries = truthy_bool (opt_public options)
    /\ has_field "user" entries = truthy (opt_user options)
    /\ (forall f v, In (TextEntry f v) entries ->
          (f = "key" /\ opt_key options = Some v)
          \/ (f = "public" /\ v = "true" /\ opt_public options = Some true)
          \/ (f = "user" /\ opt_user options = Some v))
    /\ match net (calls w ++ [request])%list request with
       | inl e => fst outcome = inl e
       | inr response =>
           if ok response
           then fst outcome = json_UploadResult (bodyText response)
           else fst outcome = inl (upload_failed response)
                /\ error_class (upload_failed response) = Some UploadFailed
       end.
Proof.
  intros Hurl. unfold uploadFile, new_URL. rewrite Hurl. cbn [bind].
  assert (Hpublic : truthy_bool (opt_public options) = true -> opt_public options = Some true).
  { destruct (opt_public options) as [[|] |]; simpl; congruence. }
  exists (let formData := [FileEntry "file" file "application/octet-stream" filename] in
          let formData := if truthy (opt_key options)
                          then (formData ++ [TextEntry "key" (the_string (opt_key options))])%list
                          else formData in
          let formData := if truthy_bool (opt_public options)
                          then (formData ++ [TextEntry "public" "true"])%list
                          else formData in
          if truthy (opt_user options)
          then (formData ++ [TextEntry "user" (the_string (opt_user options))])%list
          else formData).
  destruct (truthy (opt_key options)) eqn:Hk;
    destruct (truthy_bool (opt_public options)) eqn:Hp;
    destruct (truthy (opt_user options)) eqn:Hu;
    try (apply truthy_Some in Hk; destruct Hk as [Hk _]);
    try (apply truthy_Some in Hu; destruct Hu as [Hu _]);
    cbv zeta; cbn [app];
    (split; [| split; [eexists; split; [reflexivity | reflexivity] |
              split; [reflexivity | split; [reflexivity | split; [reflexivity | split]]]]]).
  all: try (intros f v Hin; simpl in Hin;
            repeat match goal with
                   | H : _ \/ _ |- _ => destruct H
                   | H : FileEntry _ _ _ _ = TextEntry _ _ |- _ => discriminate H
                   | H : TextEntry _ _ = TextEntry _ _ |- _ => injection H as <- <-
                   | H : False |- _ => contradiction
                   end; auto 6; fail).
  all: simpl;
    match goal with
    | |- context [match ?answer with inl _ => _ | inr _ => _ end] =>
        destruct answer as [e | resp]
    end; simpl; [reflexivity |];
    destruct (ok resp); simpl;
    try (destruct (json_UploadResult (bodyText resp)); reflexivity);
    try (split; reflexivity); reflexivity.
Qed.

End StorageAdapter.

(** C7 as stated fails: with [public: false] the option is present in
    [options], and the form carries no [public] field. *)
Lemma uploadFile_public_false :
  opt_public StorageCases.private_options = Some false
  /\ map form_fields
         (calls (snd (run Reference.service
                          (uploadFile (R := Reference.platform) StorageCases.api
                                      StorageCases.hello "hello.txt"
                                      StorageCases.private_options)
                          Reference.empty_world)))
     = [["file"]].
Proof. split; reflexivity. Qed.

Lemma uploadFile_request_witness :
  exists entries,
    calls (snd (run Reference.service
                    (uploadFile (R := Reference.platform) StorageCases.api
                                StorageCases.hello "hello.txt"
                                StorageCases.public_options)
                    Reference.empty_world))
    = [ {| method := POST;
           url := {| href := "https://api.mefs.io:10000/produce/mefs/"; searchParams := [] |};
           headers := [("Authorization", "Bearer access-1")];
           body := FormBody entries |} ]
    /\ has_field "file" entries = true
    /\ has_field "key" entries = true
    /\ has_field "public" entries = true
    /\ has_field "user" entries = false.
Proof.
  destruct (uploadFile_request (R := Reference.platform) Reference.service
              StorageCases.api StorageCases.hello "hello.txt"
              StorageCases.public_options Reference.empty_world eq_refl)
    as (entries & Hlog & (others & -> & _) & Hkey & Hpublic & Huser & _).
  eexists. split; [cbv zeta in Hlog; rewrite Hlog; reflexivity |].
  repeat split; [exact Hkey | exact Hpublic | exact Huser].
Defined.

Section Download.

Context {R : Runtime}.


End Download.



(** ** Tool envelope *)

Section Envelope.

Context {R : Runtime}.

Lemma error_cause_defined (e : Thrown) :
  error_cause e <> JUndefined <-> cause_has_message e.
Proof.
  destruct e as [n m [| []] | m f more | v]; simpl; split; intros H;
    try exact I; try discriminate; try contradiction.
Qed.


Lemma upload_failure_envelope (e : Thrown) :
  cause_has_message e -> error_envelope (upload_failure e).
Proof.
  intros Hcause. apply error_cause_defined in Hcause.
  destruct e as [n m c | m f more | v]; simpl; eexists; (split; [reflexivity |]);
    unfold carries; simpl; repeat split; eexists; split; eauto; discriminate.
Qed.




End Envelope.



(** ** Payload decoding *)

Lemma append_assoc (a b c : string) : (a ++ b) ++ c = a ++ (b ++ c).
Proof. induction a as [| x a IH]; simpl; [reflexivity | rewrite IH; reflexivity]. Qed.





Section Decoding.

Context {R : Runtime}.

(** C6, as the code has it: a payload that the multibase decoder turns down
    and that, its data-URL prefix removed, fails strict validation is
    rejected with [Invalid base64 format]: by [base64ToBytes], by the input
    schema, and by the handler, which answers with the error envelope
    without a request and without touching the cache. *)
Theorem upload_rejects_invalid_encoding (net : Transport) (mefsConfig : MefsConfig)
        (input : UploadInput) (w : World) (refusal : Thrown) :
  multiformats_base64_decode (multibase_prefixed (strip_data_url (in_file input)))
  = inl refusal ->
  strict_base64 (strip_data_url (in_file input)) = false ->
  base64ToBytes (in_file input) = inl (new_Error "Invalid base64 format")
  /\ error_class (new_Error "Invalid base64 format") = Some InvalidEncoding
  /\ uploadInputSchema_accepts input = false
  /\ run net (upload_handler mefsConfig input) w
     = (inr (upload_failure (new_Error "Invalid base64 format")),
        log_stderr "Failed to upload file:" w)
  /\ calls (snd (run net (upload_handler mefsConfig input) w)) = calls w
  /\ cachedTokens (snd (run net (upload_handler mefsConfig input) w)) = cachedTokens w
  /\ error_envelope (upload_failure (new_Error "Invalid base64 format")).
Proof.
  intros Hmulti Hstrict.
  assert (Hdecode : base64ToBytes (in_file input) = inl (new_Error "Invalid base64 format")).
  { unfold base64ToBytes, decode_clean. cbv zeta. rewrite Hmulti.
    unfold strict_base64 in Hstrict. rewrite Hstrict. reflexivity. }
  assert (Hrun : run net (upload_handler mefsConfig input) w
                 = (inr (upload_failure (new_Error "Invalid base64 format")),
                    log_stderr "Failed to upload file:" w)).
  { unfold upload_handler, upload_attempt. rewrite Hdecode. reflexivity. }
  split; [exact Hdecode |]. split; [reflexivity |]. split.
  { unfold uploadInputSchema_accepts. rewrite Hdecode.
    rewrite andb_false_r. reflexivity. }
  split; [exact Hrun |]. rewrite Hrun.
  split; [reflexivity |]. split; [reflexivity |].
  apply upload_failure_envelope. exact I.
Qed.

End Decoding.

(** C6 as stated fails: [dGVzdA] does not survive decoding and encoding
    again (it comes back padded), yet the multibase decoder takes it, so the
    handler authenticates and uploads the four bytes.  Nor does a data URL
    survive it, and its payload is decoded all the same. *)
Lemma upload_accepts_unpadded :
  strict_base64 (R := Reference.platform) (in_file DecodingCases.data_url) = false
  /\ base64ToBytes (R := Reference.platform) (in_file DecodingCases.data_url)
     = inr DecodingCases.test_bytes
  /\ strict_base64 (R := Reference.platform) (in_file DecodingCases.unpadded) = false
  /\ base64ToBytes (R := Reference.platform) (in_file DecodingCases.unpadded)
     = inr DecodingCases.test_bytes
  /\ uploadInputSchema_accepts (R := Reference.platform) DecodingCases.unpadded = true
  /\ let outcome := run Reference.service
                        (upload_handler (R := Reference.platform) Reference.config
                                        DecodingCases.unpadded)
                        Reference.empty_world in
     map (fun r => href (url r)) (calls (snd outcome))
     = ["https://api.mefs.io:10000/produce/challenge";
        "https://api.mefs.io:10000/produce/login";
        "https://api.mefs.io:10000/produce/mefs/"]
     /\ match fst outcome with
        | inr result => map error (content result) = [None]
        | inl _ => False
        end.
Proof. vm_compute. repeat split. Qed.

Lemma upload_rejects_invalid_encoding_witness :
  run Reference.service
      (upload_handler (R := Reference.platform) Reference.config DecodingCases.not_base64)
      Reference.empty_world
  = (inr (upload_failure (R := Reference.platform) (new_Error "Invalid base64 format")),
     log_stderr "Failed to upload file:" Reference.empty_world).
Proof.
  apply (upload_rejects_invalid_encoding (R := Reference.platform) Reference.service
           Reference.config DecodingCases.not_base64 Reference.empty_world
           (ErrorObj "SyntaxError" "Non-base64 character" NoCause));
    reflexivity.
Defined.

(** * Further properties *)

(** ** The steps of the authentication *)

Section AuthSteps.

Context {R : Runtime}.

Lemma run_getChallenge (net : Transport) (config : AuthConfig) (w : World) :
  URL_canParse (apiBaseUrl config ++ "/challenge") = true ->
  run net (getChallenge config) w
  = (match net (calls w ++ [challenge_request config])%list (challenge_request config) with
     | inl e => inl e
     | inr response =>
         if ok response then inr (bodyText response) else inl (challenge_failed response)
     end,
     log_call (challenge_request config) w).
Proof.
  intros Hurl.
  unfold getChallenge, new_URL, challenge_request, challenge_params, searchParams_set.
  rewrite Hurl. cbn [bind href searchParams]. cbv zeta.
  destruct (truthy (address config)); destruct (chainId config) as [n |];
    try (unfold truthy_number; destruct (n =? 0)%Z); cbn [negb href searchParams];
    rewrite run_await_fetch;
    destruct (net _ _) as [e | resp]; try reflexivity;
    destruct (ok resp); reflexivity.
Qed.

Lemma run_login (net : Transport) (config : AuthConfig) (message signature : string)
      (w : World) :
  URL_canParse (apiBaseUrl config ++ "/login") = true ->
  run net (login config message signature) w
  = (match net (calls w ++ [login_request config message signature])%list
               (login_request config message signature) with
     | inl e => inl e
     | inr response =>
         if ok response then json_LoginResponse (bodyText response)
         else inl (login_failed response)
     end,
     log_call (login_request config message signature) w).
Proof.
  intros Hurl. unfold login, new_URL, login_request, url_of. rewrite Hurl. cbn [bind].
  rewrite run_await_fetch.
  destruct (net _ _) as [e | resp]; [reflexivity |].
  destruct (ok resp); cbn [negb]; [| reflexivity].
  rewrite run_await, run_settle. reflexivity.
Qed.

Lemma run_authenticate (net : Transport) (config : AuthConfig) (w : World) :
  truthy (privateKey config) = true ->
  run net (authenticate config) w
  = match run net (getChallenge config) w with
    | (inl e, w1) => (inl e, w1)
    | (inr message, w1) =>
        match run net (signMessage (privateKey config) message) w1 with
        | (inl e, w2) => (inl e, w2)
        | (inr signature, w2) =>
            match run net (login config message signature) w2 with
            | (inl e, w3) => (inl e, w3)
            | (inr loginResponse, w3) =>
                (inr {| accessToken := lr_accessToken loginResponse;
                        refreshToken := lr_refreshToken loginResponse |}, w3)
            end
        end
    end.
Proof.
  intros Hkey. unfold authenticate. rewrite Hkey. cbn [negb].
  rewrite run_bind, run_await.
  destruct (run net (getChallenge config) w) as [[e | message] w1]; [reflexivity |].
  rewrite run_bind, run_await.
  destruct (run net (signMessage (privateKey config) message) w1)
    as [[e | signature] w2]; [reflexivity |].
  rewrite run_bind, run_await.
  destruct (run net (login config message signature) w2) as [[e | lr] w3]; reflexivity.
Qed.

(** What the signer returns on inputs it accepts. *)
Lemma run_signMessage_signed (net : Transport) (key message signature : string)
      (wallet : Wallet) (w : World) :
  test_hex (strip_0x key) = true ->
  message <> EmptyString ->
  ethers_Wallet ("0x" ++ strip_0x key) = inr wallet ->
  Wallet_signMessage wallet message = inr signature ->
  run net (signMessage (Some key) message) w = (inr signature, w).
Proof.
  intros Hhex Hmsg Hwallet Hsign. unfold signMessage.
  assert (Hkey : truthy (Some key) = true).
  { simpl. destruct key; [discriminate Hhex | reflexivity]. }
  rewrite Hkey. cbn [negb].
  apply String.eqb_neq in Hmsg. rewrite Hmsg.
  cbn [the_string or_empty]. cbv zeta. rewrite Hhex. cbn [negb].
  rewrite Hwallet. simpl. rewrite Hsign. reflexivity.
Qed.

Lemma test_hex_truthy (key : string) : test_hex (strip_0x key) = true -> truthy (Some key) = true.
Proof. destruct key; [discriminate | reflexivity]. Qed.

(** What [searchParams.set] does to the entries of a query: the key it sets
    is left with the one value, and the other keys with what they had. *)
Lemma searchParams_set_same (k v x : string) (ps : list (string * string)) :
  In (k, x) (searchParams_set_list k v ps) <-> x = v.
Proof.
  induction ps as [| [k' v'] ps IH]; cbn [searchParams_set_list].
  - split; [intros [[= <-] | []]; reflexivity | intros ->; left; reflexivity].
  - destruct (String.eqb_spec k' k) as [-> | Hk].
    + split.
      * intros [[= <-] | Hin]; [reflexivity |].
        apply filter_In in Hin. destruct Hin as [_ Hin]. cbn [fst] in Hin.
        rewrite String.eqb_refl in Hin. discriminate Hin.
      * intros ->. left. reflexivity.
    + split.
      * intros [[= Heq _] | Hin]; [contradiction | apply IH, Hin].
      * intros Hx. right. apply IH, Hx.
Qed.

Lemma searchParams_set_other (k v k' x : string) (ps : list (string * string)) :
  k' <> k -> In (k', x) (searchParams_set_list k v ps) <-> In (k', x) ps.
Proof.
  intros Hk'. induction ps as [| [k0 v0] ps IH]; cbn [searchParams_set_list].
  - split; [intros [[= Heq _] | []]; congruence | intros []].
  - destruct (String.eqb_spec k0 k) as [-> | Hk0].
    + split.
      * intros [[= Heq _] | Hin]; [congruence |].
        apply filter_In in Hin. right. apply Hin.
      * intros [[= Heq _] | Hin]; [exfalso; apply Hk'; symmetry; exact Heq |].
        right. apply filter_In. split; [exact Hin |]. cbn [fst].
        apply negb_true_iff, String.eqb_neq. exact Hk'.
    + split.
      * intros [Heq | Hin]; [left; exact Heq | right; apply IH, Hin].
      * intros [Heq | Hin]; [left; exact Heq | right; apply IH, Hin].
Qed.

(** X1: on a well-formed base URL [getChallenge] sends one GET, made of the
    string [<apiBaseUrl>/challenge], with the header [Origin] and no body,
    whatever the answer.  Its query is the query of that URL with two
    changes and no other: [address] is set to the configured address
    exactly when that is a non-empty string, and [chainid] to the chain
    id's [toString()] exactly when the chain id is a number other than
    zero.  A parameter that is not set is left as the base URL has it. *)
Theorem getChallenge_request (net : Transport) (config : AuthConfig) (w : World) :
  URL_canParse (apiBaseUrl config ++ "/challenge") = true ->
  let given := URL_searchParams (apiBaseUrl config ++ "/challenge") in
  exists query,
    snd (run net (getChallenge config) w)
    = log_call {| method := GET;
                  url := {| href := apiBaseUrl config ++ "/challenge";
                            searchParams := query |};
                  headers := [("Origin", origin config)];
                  body := NoBody |} w
    /\ (forall v, In ("address", v) query
                  <-> if truthy (address config) then address config = Some v
                      else In ("address", v) given)
    /\ (forall v, In ("chainid", v) query
                  <-> if truthy_number (chainId config)
                      then exists n, chainId config = Some n /\ v = Number_toString n
                      else In ("chainid", v) given)
    /\ (forall k v, k <> "address" -> k <> "chainid" ->
                    (In (k, v) query <-> In (k, v) given)).
Proof.
  intros Hurl given. exists (challenge_params config).
  rewrite (run_getChallenge net config w Hurl).
  split; [reflexivity |].
  unfold challenge_params. fold given. cbv zeta.
  assert (Haddress : forall v, truthy (address config) = true ->
                               (the_string (address config) = v <-> address config = Some v)).
  { intros v. destruct (address config) as [a |]; [| discriminate].
    intros _. cbn. split; [intros -> | intros [= ->]]; reflexivity. }
  split; [| split].
  - intros v.
    destruct (truthy (address config)) eqn:Ha; destruct (chainId config) as [n |];
      try destruct (Z.eqb_spec n 0) as [-> | Hn];
      rewrite ?(searchParams_set_other "chainid") by discriminate;
      rewrite ?searchParams_set_same;
      try reflexivity;
      (split; [intros ->; apply Haddress; reflexivity
              | intros Hv; symmetry; apply Haddress; [reflexivity | exact Hv]]).
  - intros v. unfold truthy_number.
    destruct (chainId config) as [n |]; [destruct (Z.eqb_spec n 0) as [-> | Hn] |];
      cbn [negb];
      destruct (truthy (address config));
      rewrite ?searchParams_set_same;
      rewrite ?(searchParams_set_other "address") by discriminate;
      try reflexivity;
      (split; [intros ->; exists n; split; reflexivity
              | intros (n' & [= <-] & ->); reflexivity]).
  - intros k v Hk1 Hk2.
    destruct (truthy (address config)); destruct (chainId config) as [n |];
      try destruct (Z.eqb_spec n 0) as [-> | Hn];
      rewrite ?(searchParams_set_other "chainid") by exact Hk2;
      rewrite ?(searchParams_set_other "address") by exact Hk1;
      reflexivity.
Qed.

(** X2: on a well-formed base URL [getChallenge] returns the body of an
    [ok] response as it is, throws [Failed to get challenge: <status>
    <statusText> - <body>] for a response that is not [ok], and passes on
    what [fetch] throws. *)
Theorem getChallenge_outcome (net : Transport) (config : AuthConfig) (w : World) :
  URL_canParse (apiBaseUrl config ++ "/challenge") = true ->
  let answer := net (calls w ++ [challenge_request config])%list (challenge_request config) in
  (forall e, answer = inl e -> fst (run net (getChallenge config) w) = inl e)
  /\ (forall response, answer = inr response -> ok response = true ->
        fst (run net (getChallenge config) w) = inr (bodyText response))
  /\ (forall response, answer = inr response -> ok response = false ->
        fst (run net (getChallenge config) w) = inl (challenge_failed response)
        /\ error_class (challenge_failed response) = Some ChallengeRequestFailed).
Proof.
  intros Hurl answer. rewrite (run_getChallenge net config w Hurl). fold answer.
  cbn [fst]. repeat split.
  - intros e ->. reflexivity.
  - intros response -> ->. reflexivity.
  - rewrite H, H0. reflexivity.
Qed.

(** X3: on a well-formed base URL [login] sends one POST to
    [<apiBaseUrl>/login] with [Content-Type: application/json] and the JSON
    of [{message, signature}]; it returns the decoded body of an [ok]
    response, and throws [Failed to login: <status> <statusText> - <body>]
    for a response that is not [ok]. *)
Theorem login_outcome (net : Transport) (config : AuthConfig) (message signature : string)
        (w : World) :
  URL_canParse (apiBaseUrl config ++ "/login") = true ->
  let request := login_request config message signature in
  let answer := net (calls w ++ [request])%list request in
  snd (run net (login config message signature) w) = log_call request w
  /\ (forall e, answer = inl e -> fst (run net (login config message signature) w) = inl e)
  /\ (forall response, answer = inr response -> ok response = true ->
        fst (run net (login config message signature) w)
        = json_LoginResponse (bodyText response))
  /\ (forall response, answer = inr response -> ok response = false ->
        fst (run net (login config message signature) w) = inl (login_failed response)
        /\ error_class (login_failed response) = Some LoginFailed).
Proof.
  intros Hurl request answer.
  rewrite (run_login net config message signature w Hurl).
  fold request. fold answer. cbn [fst snd]. repeat split.
  - intros e ->. reflexivity.
  - intros response -> ->. reflexivity.
  - rewrite H, H0. reflexivity.
Qed.

End AuthSteps.

(** ** A whole authentication *)

Section WholeAuthentication.

Context {R : Runtime}.

Lemma run_signMessage_bad_hex (net : Transport) (key message : string) (w : World) :
  key <> EmptyString -> message <> EmptyString ->
  test_hex (strip_0x key) = false ->
  run net (signMessage (Some key) message) w
  = (inl (new_Error "Failed to sign message: Invalid hex format for private key"), w).
Proof.
  intros Hkey Hmsg Hhex. unfold signMessage.
  apply String.eqb_neq in Hkey. apply String.eqb_neq in Hmsg.
  cbn [truthy]. rewrite Hkey, Hmsg. cbn [negb the_string or_empty]. cbv zeta.
  rewrite Hhex. reflexivity.
Qed.

Lemma run_signMessage_empty_message (net : Transport) (key : string) (w : World) :
  key <> EmptyString ->
  run net (signMessage (Some key) EmptyString) w
  = (inl (new_Error "Message cannot be empty"), w).
Proof.
  intros Hkey. unfold signMessage.
  apply String.eqb_neq in Hkey. cbn [truthy]. rewrite Hkey. reflexivity.
Qed.

Lemma truthy_key (key : string) : key <> EmptyString -> truthy (Some key) = true.
Proof. intros H. apply String.eqb_neq in H. simpl. rewrite H. reflexivity. Qed.

(** X4: a whole authentication.  With an empty cache, a key the signer
    accepts and both endpoints answering [ok], [getAuthTokens] sends the
    challenge request, signs the text of the answer as it is, sends that
    text and its signature to the login endpoint, and returns and caches
    the [accessToken] and [refreshToken] of the login response; nothing else
    is sent. *)
Theorem getAuthTokens_round_trip
        (net : Transport) (config : MefsConfig) (w : World) (key : string) (wallet : Wallet)
        (message signature : string) (challenged answered : Response)
        (loginResponse : LoginResponse) :
  cachedTokens w = None ->
  privateKey config = Some key ->
  test_hex (strip_0x key) = true ->
  URL_canParse (apiBaseUrl config ++ "/challenge") = true ->
  URL_canParse (apiBaseUrl config ++ "/login") = true ->
  net (calls w ++ [challenge_request config])%list (challenge_request config)
  = inr challenged ->
  ok challenged = true ->
  bodyText challenged = message ->
  message <> EmptyString ->
  ethers_Wallet ("0x" ++ strip_0x key) = inr wallet ->
  Wallet_signMessage wallet message = inr signature ->
  net (calls (log_call (challenge_request config) w)
       ++ [login_request config message signature])%list
      (login_request config message signature)
  = inr answered ->
  ok answered = true ->
  json_LoginResponse (bodyText answered) = inr loginResponse ->
  let tokens := {| accessToken := lr_accessToken loginResponse;
                   refreshToken := lr_refreshToken loginResponse |} in
  run net (getAuthTokens config) w
  = (inr tokens,
     set_cache (Some tokens)
       (log_call (login_request config message signature)
          (log_call (challenge_request config) w))).
Proof.
  intros Hcache Hkey Hhex Hurl1 Hurl2 Hc Hok1 Hbody Hmsg Hwallet Hsign Hl Hok2 Hjson tokens.
  rewrite run_getAuthTokens, Hcache.
  rewrite run_authenticate by (rewrite Hkey; apply test_hex_truthy, Hhex).
  rewrite (run_getChallenge net config w Hurl1), Hc, Hok1, Hbody, Hkey.
  rewrite (run_signMessage_signed net key message signature wallet _ Hhex Hmsg Hwallet Hsign).
  rewrite (run_login net config message signature _ Hurl2), Hl, Hok2, Hjson.
  reflexivity.
Qed.

(** X5: when the challenge endpoint answers with a response that is not
    [ok], [getAuthTokens] on an empty cache fails with [Failed to get
    challenge: <status> <statusText> - <body>]; the challenge request is the
    only request sent (nothing is signed, no login is tried), and the cache
    stays empty. *)
Theorem getAuthTokens_challenge_refused
        (net : Transport) (config : MefsConfig) (w : World) (response : Response) :
  cachedTokens w = None ->
  truthy (privateKey config) = true ->
  URL_canParse (apiBaseUrl config ++ "/challenge") = true ->
  net (calls w ++ [challenge_request config])%list (challenge_request config)
  = inr response ->
  ok response = false ->
  run net (getAuthTokens config) w
  = (inl (challenge_failed response), log_call (challenge_request config) w)
  /\ error_class (challenge_failed response) = Some ChallengeRequestFailed
  /\ cachedTokens (snd (run net (getAuthTokens config) w)) = None.
Proof.
  intros Hcache Hkey Hurl Hc Hok.
  assert (Hrun : run net (getAuthTokens config) w
                 = (inl (challenge_failed response), log_call (challenge_request config) w)).
  { rewrite run_getAuthTokens, Hcache, (run_authenticate net config w Hkey).
    rewrite (run_getChallenge net config w Hurl), Hc, Hok. reflexivity. }
  rewrite Hrun. split; [reflexivity | split; [reflexivity | exact Hcache]].
Qed.

(** X6: when the login endpoint answers with a response that is not [ok],
    [getAuthTokens] on an empty cache fails with [Failed to login: <status>
    <statusText> - <body>], with the status and the body of that response;
    the challenge request and the login request are the two requests sent,
    and the cache stays empty. *)
Theorem getAuthTokens_login_refused
        (net : Transport) (config : MefsConfig) (w : World) (key : string) (wallet : Wallet)
        (message signature : string) (challenged answered : Response) :
  cachedTokens w = None ->
  privateKey config = Some key ->
  test_hex (strip_0x key) = true ->
  URL_canParse (apiBaseUrl config ++ "/challenge") = true ->
  URL_canParse (apiBaseUrl config ++ "/login") = true ->
  net (calls w ++ [challenge_request config])%list (challenge_request config)
  = inr challenged ->
  ok challenged = true ->
  bodyText challenged = message ->
  message <> EmptyString ->
  ethers_Wallet ("0x" ++ strip_0x key) = inr wallet ->
  Wallet_signMessage wallet message = inr signature ->
  net (calls (log_call (challenge_request config) w)
       ++ [login_request config message signature])%list
      (login_request config message signature)
  = inr answered ->
  ok answered = false ->
  run net (getAuthTokens config) w
  = (inl (login_failed answered),
     log_call (login_request config message signature)
       (log_call (challenge_request config) w))
  /\ error_class (login_failed answered) = Some LoginFailed
  /\ cachedTokens (snd (run net (getAuthTokens config) w)) = None.
Proof.
  intros Hcache Hkey Hhex Hurl1 Hurl2 Hc Hok1 Hbody Hmsg Hwallet Hsign Hl Hok2.
  assert (Hrun : run net (getAuthTokens config) w
                 = (inl (login_failed answered),
                    log_call (login_request config message signature)
                      (log_call (challenge_request config) w))).
  { rewrite run_getAuthTokens, Hcache.
    rewrite run_authenticate by (rewrite Hkey; apply test_hex_truthy, Hhex).
    rewrite (run_getChallenge net config w Hurl1), Hc, Hok1, Hbody, Hkey.
    rewrite (run_signMessage_signed net key message signature wallet _ Hhex Hmsg Hwallet Hsign).
    rewrite (run_login net config message signature _ Hurl2), Hl, Hok2.
    reflexivity. }
  rewrite Hrun. split; [reflexivity | split; [reflexivity | exact Hcache]].
Qed.

(** X7: the format of the key is looked at only once the challenge is there.
    With a non-empty key that is not hexadecimal, [getAuthTokens] on an
    empty cache still sends the challenge request, and then fails with
    [Failed to sign message: Invalid hex format for private key]; no login
    request follows. *)
Theorem getAuthTokens_key_checked_late
        (net : Transport) (config : MefsConfig) (w : World) (key : string)
        (challenged : Response) :
  cachedTokens w = None ->
  privateKey config = Some key ->
  key <> EmptyString ->
  test_hex (strip_0x key) = false ->
  URL_canParse (apiBaseUrl config ++ "/challenge") = true ->
  net (calls w ++ [challenge_request config])%list (challenge_request config)
  = inr challenged ->
  ok challenged = true ->
  bodyText challenged <> EmptyString ->
  run net (getAuthTokens config) w
  = (inl (new_Error "Failed to sign message: Invalid hex format for private key"),
     log_call (challenge_request config) w)
  /\ error_class (new_Error "Failed to sign message: Invalid hex format for private key")
     = Some InvalidKeyFormat.
Proof.
  intros Hcache Hkey Hne Hhex Hurl Hc Hok Hbody.
  split; [| reflexivity].
  rewrite run_getAuthTokens, Hcache.
  rewrite run_authenticate by (rewrite Hkey; apply truthy_key, Hne).
  rewrite (run_getChallenge net config w Hurl), Hc, Hok, Hkey.
  rewrite (run_signMessage_bad_hex net key _ _ Hne Hbody Hhex). reflexivity.
Qed.

(** X8: a challenge that is the empty string cannot be signed:
    [getAuthTokens] on an empty cache fails with [Message cannot be empty]
    behind the challenge request, whatever the key, and sends no login
    request. *)
Theorem getAuthTokens_empty_challenge
        (net : Transport) (config : MefsConfig) (w : World) (key : string)
        (challenged : Response) :
  cachedTokens w = None ->
  privateKey config = Some key ->
  key <> EmptyString ->
  URL_canParse (apiBaseUrl config ++ "/challenge") = true ->
  net (calls w ++ [challenge_request config])%list (challenge_request config)
  = inr challenged ->
  ok challenged = true ->
  bodyText challenged = EmptyString ->
  run net (getAuthTokens config) w
  = (inl (new_Error "Message cannot be empty"), log_call (challenge_request config) w)
  /\ error_class (new_Error "Message cannot be empty") = Some EmptyInput.
Proof.
  intros Hcache Hkey Hne Hurl Hc Hok Hbody.
  split; [| reflexivity].
  rewrite run_getAuthTokens, Hcache.
  rewrite run_authenticate by (rewrite Hkey; apply truthy_key, Hne).
  rewrite (run_getChallenge net config w Hurl), Hc, Hok, Hbody, Hkey.
  rewrite (run_signMessage_empty_message net key _ Hne). reflexivity.
Qed.

(** X9: [clearAuthTokens] drops whatever pair is held, so the call of
    [getAuthTokens] that follows it always authenticates: it returns what
    [authenticate] returns on the emptied cache, and leaves the new pair in
    the cache when that succeeds and an empty cache when it fails. *)
Theorem clearAuthTokens_then_getAuthTokens
        (net : Transport) (config : MefsConfig) (w : World) :
  let fresh := run net (authenticate config) (set_cache None w) in
  let outcome := run net (_ <- clearAuthTokens ;; getAuthTokens config) w in
  fst outcome = fst fresh
  /\ calls (snd outcome) = calls (snd fresh)
  /\ cachedTokens (snd outcome)
     = match fst fresh with
       | inr tokens => Some tokens
       | inl _ => None
       end.
Proof.
  cbv zeta. unfold clearAuthTokens. cbn [bind run].
  rewrite run_getAuthTokens. cbn [cachedTokens set_cache].
  pose proof (run_cache_free net (authenticate config) (set_cache None w)
                (cache_free_authenticate config)) as Hfree.
  destruct (run net (authenticate config) (set_cache None w)) as [[e | tokens] w'];
    cbn [fst snd] in *; repeat split; auto.
Qed.

End WholeAuthentication.

Lemma getChallenge_request_witness :
  exists query,
    snd (run Reference.service (getChallenge (R := Reference.platform) Scenarios.with_address)
             Reference.empty_world)
    = log_call {| method := GET;
                  url := {| href := "https://api.mefs.io:10000/produce/challenge";
                            searchParams := query |};
                  headers := [("Origin", "https://memo.io")];
                  body := NoBody |} Reference.empty_world
    /\ In ("address", "0xf39Fd6e51aad88F6F4ce6aB8827279cffFb92266") query
    /\ In ("chainid", "985") query.
Proof.
  destruct (getChallenge_request (R := Reference.platform) Reference.service
              Scenarios.with_address Reference.empty_world eq_refl)
    as (query & Hlog & Haddress & Hchain & _).
  exists query. split; [exact Hlog |]. split.
  - apply Haddress. reflexivity.
  - apply Hchain. exists 985%Z. split; reflexivity.
Defined.

Lemma getChallenge_outcome_witness :
  fst (run Scenarios.refusing (getChallenge (R := Reference.platform) Reference.config)
           Reference.empty_world)
  = inl (challenge_failed Scenarios.unauthorized)
  /\ error_class (challenge_failed Scenarios.unauthorized) = Some ChallengeRequestFailed.
Proof.
  destruct (getChallenge_outcome (R := Reference.platform) Scenarios.refusing
              Reference.config Reference.empty_world eq_refl) as (_ & _ & Hrefused).
  apply (Hrefused Scenarios.unauthorized); reflexivity.
Defined.

Lemma login_outcome_witness :
  fst (run Scenarios.refusing
           (login (R := Reference.platform) Reference.config "challenge" "0xsigned")
           Reference.empty_world)
  = inl (login_failed Scenarios.unauthorized)
  /\ error_class (login_failed Scenarios.unauthorized) = Some LoginFailed.
Proof.
  destruct (login_outcome (R := Reference.platform) Scenarios.refusing
              Reference.config "challenge" "0xsigned" Reference.empty_world eq_refl)
    as (_ & _ & _ & Hrefused).
  apply (Hrefused Scenarios.unauthorized); reflexivity.
Defined.

Lemma getAuthTokens_round_trip_witness :
  run Reference.service (getAuthTokens (R := Reference.platform) Reference.config)
      Reference.empty_world
  = (inr {| accessToken := "access-1"; refreshToken := "refresh-1" |},
     set_cache (Some {| accessToken := "access-1"; refreshToken := "refresh-1" |})
       (log_call (login_request (R := Reference.platform) Reference.config
                                "challenge" "0xsigned")
          (log_call (challenge_request (R := Reference.platform) Reference.config) Reference.empty_world))).
Proof.
  apply (getAuthTokens_round_trip (R := Reference.platform) Reference.service
           Reference.config Reference.empty_world
           ("0x" ++ Scenarios.hex_key)
           {| wallet_privateKey := "0x" ++ Scenarios.hex_key |}
           "challenge" "0xsigned"
           (Reference.response_ok "challenge") (Reference.response_ok "1")
           {| lr_accessToken := "access-1"; lr_refreshToken := "refresh-1";
              lr_newAccount := false |});
    try reflexivity; discriminate.
Defined.

Lemma getAuthTokens_challenge_refused_witness :
  run Scenarios.refusing (getAuthTokens (R := Reference.platform) Reference.config)
      Reference.empty_world
  = (inl (challenge_failed Scenarios.unauthorized),
     log_call (challenge_request (R := Reference.platform) Reference.config) Reference.empty_world).
Proof.
  apply (getAuthTokens_challenge_refused (R := Reference.platform) Scenarios.refusing
           Reference.config Reference.empty_world Scenarios.unauthorized);
    reflexivity.
Defined.

Lemma getAuthTokens_login_refused_witness :
  run Scenarios.refusing_login (getAuthTokens (R := Reference.platform) Reference.config)
      Reference.empty_world
  = (inl (login_failed Scenarios.unauthorized),
     log_call (login_request (R := Reference.platform) Reference.config
                             "challenge" "0xsigned")
       (log_call (challenge_request (R := Reference.platform) Reference.config) Reference.empty_world)).
Proof.
  apply (getAuthTokens_login_refused (R := Reference.platform) Scenarios.refusing_login
           Reference.config Reference.empty_world
           ("0x" ++ Scenarios.hex_key)
           {| wallet_privateKey := "0x" ++ Scenarios.hex_key |}
           "challenge" "0xsigned"
           (Reference.response_ok "challenge") Scenarios.unauthorized);
    try reflexivity; discriminate.
Defined.

Lemma getAuthTokens_key_checked_late_witness :
  run Reference.service (getAuthTokens (R := Reference.platform) Scenarios.bad_key)
      Reference.empty_world
  = (inl (new_Error "Failed to sign message: Invalid hex format for private key"),
     log_call (challenge_request (R := Reference.platform) Scenarios.bad_key) Reference.empty_world).
Proof.
  apply (getAuthTokens_key_checked_late (R := Reference.platform) Reference.service
           Scenarios.bad_key Reference.empty_world "invalid-key"
           (Reference.response_ok "challenge"));
    try reflexivity; discriminate.
Defined.

Lemma getAuthTokens_empty_challenge_witness :
  run Scenarios.empty_challenge (getAuthTokens (R := Reference.platform) Reference.config)
      Reference.empty_world
  = (inl (new_Error "Message cannot be empty"),
     log_call (challenge_request (R := Reference.platform) Reference.config) Reference.empty_world).
Proof.
  apply (getAuthTokens_empty_challenge (R := Reference.platform) Scenarios.empty_challenge
           Reference.config Reference.empty_world ("0x" ++ Scenarios.hex_key)
           (Reference.response_ok EmptyString));
    try reflexivity; discriminate.
Defined.

(** ** The storage adapter and the handlers, end to end *)

Section EndToEnd.

Context {R : Runtime}.

Lemma run_uploadFile (net : Transport) (config : ApiConfig) (file : Bytes)
      (filename : string) (options : UploadOptions) (w : World) :
  URL_canParse (api_apiBaseUrl config ++ "/mefs/") = true ->
  run net (uploadFile config file filename options) w
  = (match net (calls w ++ [upload_request config file filename options])%list
               (upload_request config file filename options) with
     | inl e => inl e
     | inr response =>
         if ok response then json_UploadResult (bodyText response)
         else inl (upload_failed response)
     end,
     log_call (upload_request config file filename options) w).
Proof.
  intros Hurl. unfold uploadFile, new_URL, upload_request, upload_form, url_of.
  rewrite Hurl. cbn [bind]. cbv zeta.
  destruct (truthy (opt_key options)), (truthy_bool (opt_public options)),
    (truthy (opt_user options)); cbn [app];
    rewrite run_await_fetch;
    destruct (net _ _) as [e | resp]; try reflexivity;
    destruct (ok resp); cbn [negb]; try reflexivity;
    rewrite run_await, run_settle; reflexivity.
Qed.

Lemma run_downloadFile (net : Transport) (config : ApiConfig) (cid : string)
      (key : option string) (w : World) :
  URL_canParse (api_apiBaseUrl config ++ "/mefs/" ++ cid) = true ->
  run net (downloadFile config cid key) w
  = (match net (calls w ++ [download_request config cid key])%list
               (download_request config cid key) with
     | inl e => inl e
     | inr response =>
         if ok response then inr (downloaded response) else inl (download_failed response)
     end,
     log_call (download_request config cid key) w).
Proof.
  intros Hurl.
  unfold downloadFile, new_URL, download_request, download_params, searchParams_set.
  rewrite Hurl. cbn [bind href searchParams]. cbv zeta.
  destruct (truthy key); cbn [href searchParams];
    rewrite run_await_fetch;
    destruct (net _ _) as [e | resp]; try reflexivity;
    destruct (ok resp); reflexivity.
Qed.

Lemma cache_free_uploadFile (config : ApiConfig) (file : Bytes) (filename : string)
      (options : UploadOptions) :
  cache_free (uploadFile config file filename options).
Proof.
  unfold uploadFile.
  apply cache_free_bind; [apply cache_free_new_URL | intros u].
  apply cache_free_bind; [apply cache_free_await, cache_free_fetch | intros resp].
  destruct (negb (ok resp)).
  - apply cache_free_bind; [apply cache_free_response_text | intros t; constructor].
  - apply cache_free_await, cache_free_settle.
Qed.

Lemma cache_free_downloadFile (config : ApiConfig) (cid : string) (key : option string) :
  cache_free (downloadFile config cid key).
Proof.
  unfold downloadFile.
  apply cache_free_bind; [apply cache_free_new_URL | intros u].
  apply cache_free_bind; [apply cache_free_await, cache_free_fetch | intros resp].
  destruct (negb (ok resp)).
  - apply cache_free_bind; [apply cache_free_response_text | intros t; constructor].
  - apply cache_free_bind; [apply cache_free_await; constructor | intros b; constructor].
Qed.

(** The upload handler, step by step. *)
Lemma run_upload_handler (net : Transport) (mefsConfig : MefsConfig) (input : UploadInput)
      (w : World) :
  run net (upload_handler mefsConfig input) w
  = match base64ToBytes (in_file input) with
    | inl e => (inr (upload_failure e), log_stderr "Failed to upload file:" w)
    | inr fileBytes =>
        match run net (getAuthTokens mefsConfig) w with
        | (inl e, w1) => (inr (upload_failure e), log_stderr "Failed to upload file:" w1)
        | (inr tokens, w1) =>
            match run net (uploadFile (api_of mefsConfig tokens) fileBytes (in_name input)
                                      (handler_options input)) w1 with
            | (inl e, w2) =>
                (inr (upload_failure e), log_stderr "Failed to upload file:" w2)
            | (inr result, w2) => (inr (upload_success input result fileBytes), w2)
            end
        end
    end.
Proof.
  unfold upload_handler, upload_attempt, upload_transfer, api_of, handler_options.
  rewrite run_try_catch, run_bind, run_settle.
  destruct (base64ToBytes (in_file input)) as [e | fileBytes]; [reflexivity |].
  rewrite run_bind, run_await.
  destruct (run net (getAuthTokens mefsConfig) w) as [[e | tokens] w1]; [reflexivity |].
  rewrite run_bind, run_await.
  destruct (run net (uploadFile _ _ _ _) w1) as [[e | result] w2]; reflexivity.
Qed.

(** The retrieve handler, step by step. *)
Lemma run_retrieve_handler (net : Transport) (mefsConfig : MefsConfig)
      (input : RetrieveInput) (w : World) :
  run net (retrieve_handler mefsConfig input) w
  = match run net (getAuthTokens mefsConfig) w with
    | (inl e, w1) =>
        (inr (retrieve_failure mefsConfig e), log_stderr "Failed to retrieve file:" w1)
    | (inr tokens, w1) =>
        match run net (downloadFile (api_of mefsConfig tokens) (in_cid input)
                                    (in_dkey input)) w1 with
        | (inl e, w2) =>
            (inr (retrieve_failure mefsConfig e), log_stderr "Failed to retrieve file:" w2)
        | (inr result, w2) => (inr (retrieve_success input result), w2)
        end
    end.
Proof.
  unfold retrieve_handler, retrieve_attempt, api_of.
  rewrite run_try_catch, run_bind, run_await.
  destruct (run net (getAuthTokens mefsConfig) w) as [[e | tokens] w1]; [reflexivity |].
  rewrite run_bind, run_await.
  destruct (run net (downloadFile _ _ _) w1) as [[e | result] w2]; reflexivity.
Qed.

(** X10: on a well-formed URL [downloadFile] sends one GET, made of the
    string [<apiBaseUrl>/mefs/<cid>], with [Authorization: Bearer
    <accessToken>].  Its query is the query of that URL with one change and
    no other: [key] is set to the given key exactly when that is a
    non-empty string; every other parameter, and [key] when it is not set,
    is left as the URL has it.  A response that is not [ok] makes the call
    fail with [Failed to download file: <status> <statusText> - <body>], and
    what [fetch] throws is passed on. *)
Theorem downloadFile_request (net : Transport) (config : ApiConfig) (cid : string)
        (key : option string) (w : World) :
  URL_canParse (api_apiBaseUrl config ++ "/mefs/" ++ cid) = true ->
  let given := URL_searchParams (api_apiBaseUrl config ++ "/mefs/" ++ cid) in
  exists query,
    let request :=
      {| method := GET;
         url := {| href := api_apiBaseUrl config ++ "/mefs/" ++ cid;
                   searchParams := query |};
         headers := [("Authorization", "Bearer " ++ api_accessToken config)];
         body := NoBody |} in
    let answer := net (calls w ++ [request])%list request in
    snd (run net (downloadFile config cid key) w) = log_call request w
    /\ (forall v, In ("key", v) query
                  <-> if truthy key then key = Some v else In ("key", v) given)
    /\ (forall k v, k <> "key" -> (In (k, v) query <-> In (k, v) given))
    /\ (forall e, answer = inl e -> fst (run net (downloadFile config cid key) w) = inl e)
    /\ (forall response, answer = inr response -> ok response = false ->
          fst (run net (downloadFile config cid key) w) = inl (download_failed response)
          /\ error_class (download_failed response) = Some DownloadFailed).
Proof.
  intros Hurl given. exists (download_params config cid key). cbv zeta.
  rewrite (run_downloadFile net config cid key w Hurl).
  change {| method := GET;
            url := {| href := api_apiBaseUrl config ++ "/mefs/" ++ cid;
                      searchParams := download_params config cid key |};
            headers := [("Authorization", "Bearer " ++ api_accessToken config)];
            body := NoBody |}
    with (download_request config cid key).
  cbn [fst snd].
  split; [reflexivity |]. split; [| split; [| split]].
  - intros v. unfold download_params. fold given. cbv zeta.
    destruct key as [k |]; [| reflexivity]. cbn [truthy].
    destruct (String.eqb_spec k EmptyString) as [-> | Hk]; cbn [negb]; [reflexivity |].
    rewrite searchParams_set_same. cbn [the_string or_empty].
    split; [intros ->; reflexivity | intros [= ->]; reflexivity].
  - intros k v Hk. unfold download_params. fold given. cbv zeta.
    destruct (truthy key); [| reflexivity].
    apply searchParams_set_other. exact Hk.
  - intros e ->. reflexivity.
  - intros response -> ->. split; reflexivity.
Qed.

(** X11: the handlers never drop or replace a token pair that is held.
    Whatever the payload and whatever the service answers (a 401 as well),
    the pair held before a call of either handler is the pair held after
    it. *)
Theorem handlers_keep_held_tokens (net : Transport) (mefsConfig : MefsConfig)
        (upload : UploadInput) (retrieve : RetrieveInput) (w : World) (held : AuthTokens) :
  cachedTokens w = Some held ->
  cachedTokens (snd (run net (upload_handler mefsConfig upload) w)) = Some held
  /\ cachedTokens (snd (run net (retrieve_handler mefsConfig retrieve) w)) = Some held.
Proof.
  intros Hheld. rewrite run_upload_handler, run_retrieve_handler, run_getAuthTokens, Hheld.
  split.
  - destruct (base64ToBytes (in_file upload)) as [e | fileBytes]; [exact Hheld |].
    pose proof (run_cache_free net _ w
                  (cache_free_uploadFile (api_of mefsConfig held) fileBytes (in_name upload)
                     (handler_options upload))) as Hfree.
    destruct (run net (uploadFile _ _ _ _) w) as [[e | result] w2];
      cbn [snd] in *; cbn [log_stderr cachedTokens]; congruence.
  - pose proof (run_cache_free net _ w
                  (cache_free_downloadFile (api_of mefsConfig held) (in_cid retrieve)
                     (in_dkey retrieve))) as Hfree.
    destruct (run net (downloadFile _ _ _) w) as [[e | result] w2];
      cbn [snd] in *; cbn [log_stderr cachedTokens]; congruence.
Qed.

(** X12: with a token pair held, the retrieve handler sends one request and
    no other: the download request with the held access token.  It does not
    authenticate again, and a response that is not [ok] comes back as the
    error envelope of [Failed to download file: ...]. *)
Theorem retrieve_handler_on_held_tokens (net : Transport) (mefsConfig : MefsConfig)
        (input : RetrieveInput) (w : World) (held : AuthTokens) :
  cachedTokens w = Some held ->
  URL_canParse (apiBaseUrl mefsConfig ++ "/mefs/" ++ in_cid input) = true ->
  let request := download_request (api_of mefsConfig held) (in_cid input) (in_dkey input) in
  calls (snd (run net (retrieve_handler mefsConfig input) w)) = (calls w ++ [request])%list
  /\ (forall response,
        net (calls w ++ [request])%list request = inr response -> ok response = false ->
        fst (run net (retrieve_handler mefsConfig input) w)
        = inr (retrieve_failure mefsConfig (download_failed response))).
Proof.
  intros Hheld Hurl request.
  rewrite run_retrieve_handler, run_getAuthTokens, Hheld.
  rewrite (run_downloadFile net (api_of mefsConfig held) _ _ w Hurl). fold request.
  split.
  - destruct (net (calls w ++ [request])%list request) as [e | resp]; [reflexivity |].
    destruct (ok resp); reflexivity.
  - intros response -> ->. reflexivity.
Qed.

(** X13: without a private key and without a held pair, both handlers answer
    with the error envelope of [Private key is required for authentication]
    and send no request: the retrieve handler for every input, the upload
    handler for every payload that decodes. *)
Theorem handlers_without_key (net : Transport) (mefsConfig : MefsConfig)
        (upload : UploadInput) (retrieve : RetrieveInput) (fileBytes : Bytes) (w : World) :
  truthy (privateKey mefsConfig) = false ->
  cachedTokens w = None ->
  base64ToBytes (in_file upload) = inr fileBytes ->
  run net (upload_handler mefsConfig upload) w
  = (inr {| content := [ {| error := Some true; type := "text";
                            text := error_text "Private key is required for authentication" |} ] |},
     log_stderr "Failed to upload file:" w)
  /\ run net (retrieve_handler mefsConfig retrieve) w
     = (inr (retrieve_failure mefsConfig
               (new_Error "Private key is required for authentication")),
        log_stderr "Failed to retrieve file:" w)
  /\ calls (snd (run net (upload_handler mefsConfig upload) w)) = calls w
  /\ calls (snd (run net (retrieve_handler mefsConfig retrieve) w)) = calls w.
Proof.
  intros Hkey Hcache Hbytes.
  assert (Hauth : run net (getAuthTokens mefsConfig) w
                  = (inl (new_Error "Private key is required for authentication"), w)).
  { rewrite run_getAuthTokens, Hcache. unfold authenticate. rewrite Hkey. reflexivity. }
  rewrite run_upload_handler, run_retrieve_handler, Hbytes, Hauth.
  repeat split.
Qed.

(** X14: the upload handler, when all goes well.  With a payload that
    decodes, a held token pair and an [ok] answer whose body decodes, it
    sends the one upload request, with the decoded bytes, the name, the key
    and the public flag of the input and the held access token, and returns
    one payload without error flag: the [Mid] of the answer as [cid], the
    name of the input as [filename], and the number of decoded bytes as
    [size]. *)
Theorem upload_handler_success (net : Transport) (mefsConfig : MefsConfig)
        (input : UploadInput) (fileBytes : Bytes) (held : AuthTokens)
        (response : Response) (result : UploadResult) (w : World) :
  base64ToBytes (in_file input) = inr fileBytes ->
  cachedTokens w = Some held ->
  URL_canParse (apiBaseUrl mefsConfig ++ "/mefs/") = true ->
  let request := upload_request (api_of mefsConfig held) fileBytes (in_name input)
                                (handler_options input) in
  net (calls w ++ [request])%list request = inr response ->
  ok response = true ->
  json_UploadResult (bodyText response) = inr result ->
  run net (upload_handler mefsConfig input) w
  = (inr {| content :=
              [ {| error := None; type := "text";
                   text := JSON_stringify
                             (JObject [("cid", JString (Mid result));
                                       ("filename", JString (in_name input));
                                       ("size", JNumber (Z.of_nat (List.length fileBytes)))])
                |} ] |},
     log_call request w).
Proof.
  intros Hbytes Hheld Hurl request Hanswer Hok Hjson.
  rewrite run_upload_handler, Hbytes, run_getAuthTokens, Hheld.
  rewrite (run_uploadFile net (api_of mefsConfig held) _ _ _ w Hurl).
  fold request. rewrite Hanswer, Hok, Hjson. reflexivity.
Qed.

(** X15: the retrieve handler, when all goes well.  With a held token pair
    and an [ok] answer it returns one payload without error flag: the [cid]
    of the input, the filename read off [Content-Disposition], the body in
    base64 as [file], the number of bytes of the body (not of its base64
    text) as [size], and the [contentType] when there is one. *)
Theorem retrieve_handler_success (net : Transport) (mefsConfig : MefsConfig)
        (input : RetrieveInput) (held : AuthTokens) (response : Response) (w : World) :
  cachedTokens w = Some held ->
  URL_canParse (apiBaseUrl mefsConfig ++ "/mefs/" ++ in_cid input) = true ->
  let request := download_request (api_of mefsConfig held) (in_cid input) (in_dkey input) in
  net (calls w ++ [request])%list request = inr response ->
  ok response = true ->
  run net (retrieve_handler mefsConfig input) w
  = (inr {| content :=
              [ {| error := None; type := "text";
                   text := JSON_stringify
                             (JObject
                                [("cid", JString (in_cid input));
                                 ("filename", JString (filename (downloaded response)));
                                 ("file", JString (Buffer_toString_base64 (bodyBytes response)));
                                 ("size", JNumber (Z.of_nat (List.length (bodyBytes response))));
                                 ("contentType",
                                  JString_or_undefined
                                    (or_undefined (headers_get response "content-type")))])
                |} ] |},
     log_call request w).
Proof.
  intros Hheld Hurl request Hanswer Hok.
  rewrite run_retrieve_handler, run_getAuthTokens, Hheld.
  rewrite (run_downloadFile net (api_of mefsConfig held) _ _ w Hurl).
  fold request. rewrite Hanswer, Hok. reflexivity.
Qed.

End EndToEnd.

Lemma downloadFile_request_witness :
  exists query,
    calls (snd (run Scenarios.refusing
                    (downloadFile (R := Reference.platform) StorageCases.api
                                  "bafy-report?key=1" None)
                    Reference.empty_world))
    = [ {| method := GET;
           url := {| href := "https://api.mefs.io:10000/produce/mefs/bafy-report?key=1";
                     searchParams := query |};
           headers := [("Authorization", "Bearer access-1")];
           body := NoBody |} ]
    /\ In ("key", "1") query
    /\ fst (run Scenarios.refusing
                (downloadFile (R := Reference.platform) StorageCases.api
                              "bafy-report?key=1" None)
                Reference.empty_world)
       = inl (download_failed Scenarios.unauthorized).
Proof.
  pose proof (downloadFile_request (R := Reference.platform) Scenarios.refusing
                StorageCases.api "bafy-report?key=1" None
                Reference.empty_world eq_refl) as Hrequest.
  cbv zeta in Hrequest.
  destruct Hrequest as (query & Hlog & Hkey & _ & _ & Hrefused).
  exists query. split; [rewrite Hlog; reflexivity |]. split.
  - apply Hkey. left. reflexivity.
  - apply (Hrefused Scenarios.unauthorized); reflexivity.
Defined.

Lemma handlers_keep_held_tokens_witness :
  cachedTokens (snd (run Scenarios.refusing
                         (upload_handler (R := Reference.platform) Reference.config
                                         Scenarios.upload_test)
                         Cases.authenticated_world)) = Some Cases.held
  /\ cachedTokens (snd (run Scenarios.refusing
                            (retrieve_handler (R := Reference.platform) Reference.config
                                              Scenarios.retrieve_report)
                            Cases.authenticated_world)) = Some Cases.held.
Proof.
  apply (handlers_keep_held_tokens (R := Reference.platform) Scenarios.refusing
           Reference.config Scenarios.upload_test Scenarios.retrieve_report
           Cases.authenticated_world Cases.held).
  reflexivity.
Defined.

Lemma retrieve_handler_on_held_tokens_witness :
  calls (snd (run Scenarios.refusing
                  (retrieve_handler (R := Reference.platform) Reference.config
                                    Scenarios.retrieve_report)
                  Cases.authenticated_world))
  = [download_request (R := Reference.platform) (api_of Reference.config Cases.held) "bafy-report"
                      (Some "f1d4a0b37124c3a7")]
  /\ fst (run Scenarios.refusing
              (retrieve_handler (R := Reference.platform) Reference.config
                                Scenarios.retrieve_report)
              Cases.authenticated_world)
     = inr (retrieve_failure (R := Reference.platform) Reference.config
                             (download_failed Scenarios.unauthorized)).
Proof.
  destruct (retrieve_handler_on_held_tokens (R := Reference.platform) Scenarios.refusing
              Reference.config Scenarios.retrieve_report Cases.authenticated_world
              Cases.held eq_refl eq_refl) as (Hcalls & Hrefused).
  split; [exact Hcalls |].
  apply (Hrefused Scenarios.unauthorized); reflexivity.
Defined.

Lemma handlers_without_key_witness :
  calls (snd (run Reference.service
                  (upload_handler (R := Reference.platform) Cases.keyless
                                  Scenarios.upload_test)
                  Reference.empty_world)) = []
  /\ calls (snd (run Reference.service
                     (retrieve_handler (R := Reference.platform) Cases.keyless
                                       Scenarios.retrieve_report)
                     Reference.empty_world)) = [].
Proof.
  destruct (handlers_without_key (R := Reference.platform) Reference.service
              Cases.keyless Scenarios.upload_test Scenarios.retrieve_report
              DecodingCases.test_bytes Reference.empty_world eq_refl eq_refl eq_refl)
    as (_ & _ & Hupload & Hretrieve).
  split; [exact Hupload | exact Hretrieve].
Defined.

Lemma upload_handler_success_witness :
  fst (run Reference.service
           (upload_handler (R := Reference.platform) Reference.config Scenarios.upload_test)
           Cases.authenticated_world)
  = inr {| content :=
             [ {| error := None; type := "text";
                  text := Reference.stringify
                            (JObject [("cid", JString "stored");
                                      ("filename", JString "test.txt");
                                      ("size", JNumber 4)]) |} ] |}.
Proof.
  rewrite (upload_handler_success (R := Reference.platform) Reference.service
             Reference.config Scenarios.upload_test DecodingCases.test_bytes Cases.held
             (Reference.response_ok "stored") {| Mid := "stored" |}
             Cases.authenticated_world eq_refl eq_refl eq_refl eq_refl eq_refl eq_refl).
  reflexivity.
Defined.

Lemma retrieve_handler_success_witness :
  fst (run (answering StorageCases.attachment)
           (retrieve_handler (R := Reference.platform) Reference.config
                             Scenarios.retrieve_report)
           Cases.authenticated_world)
  = inr {| content :=
             [ {| error := None; type := "text";
                  text := Reference.stringify
                            (JObject [("cid", JString "bafy-report");
                                      ("filename", JString "report.pdf");
                                      ("file", JString "aGVsbG8=");
                                      ("size", JNumber 5);
                                      ("contentType", JString "application/pdf")]) |} ] |}.
Proof.
  rewrite (retrieve_handler_success (R := Reference.platform)
             (answering StorageCases.attachment) Reference.config
             Scenarios.retrieve_report Cases.held StorageCases.attachment
             Cases.authenticated_world eq_refl eq_refl eq_refl eq_refl).
  reflexivity.
Defined.

(** ** Payloads, file names and keys *)

Lemma startsWith_split (s p : string) :
  startsWith s p = true -> s = p ++ slice (String.length p) s.
Proof.
  revert s. induction p as [| a p IH]; intros s H; [reflexivity |].
  destruct s as [| b s]; [discriminate H |].
  simpl in H. apply andb_prop in H. destruct H as [Hb Hs].
  apply Ascii.eqb_eq in Hb. subst b. simpl. rewrite <- (IH s Hs). reflexivity.
Qed.

Lemma after_lazy_dots_suffix (pat s rest : string) :
  after_lazy_dots pat s = Some rest -> exists pre, s = pre ++ rest.
Proof.
  revert rest. induction s as [| c s IH]; intros rest; cbn [after_lazy_dots].
  - destruct (startsWith EmptyString pat) eqn:Hs; [| discriminate].
    intros [= <-]. exists pat. apply (startsWith_split _ _ Hs).
  - destruct (startsWith (String c s) pat) eqn:Hs.
    + intros [= <-]. exists pat. apply (startsWith_split _ _ Hs).
    + destruct (is_line_terminator c); [discriminate |].
      intros H. destruct (IH rest H) as [pre ->].
      exists (String c pre). reflexivity.
Qed.

Lemma strip_data_url_other (s : string) :
  startsWith s "data:" = false -> strip_data_url s = s.
Proof. intros H. unfold strip_data_url. rewrite H. reflexivity. Qed.

Lemma span_not_quote_no_quote (s : string) : no_quote (span_not_quote s) = true.
Proof.
  induction s as [| c s IH]; [reflexivity |].
  simpl. destruct (c =? dquote)%char eqn:Hc; [reflexivity |].
  simpl. rewrite Hc, IH. reflexivity.
Qed.

Lemma match_filename_here_captured (s captured : string) :
  match_filename_here s = Some captured ->
  captured <> EmptyString /\ no_quote captured = true.
Proof.
  unfold match_filename_here.
  destruct (startsWith s "filename="); [| discriminate].
  cbv zeta.
  destruct (span_not_quote (if startsWith (slice 9 s) (String dquote EmptyString)
                            then slice 1 (slice 9 s) else slice 9 s)) as [| c cap] eqn:Hfirst.
  - destruct (span_not_quote (slice 9 s)) as [| c cap] eqn:Hsecond; [discriminate |].
    intros [= <-]. split; [discriminate |].
    rewrite <- Hsecond. apply span_not_quote_no_quote.
  - intros [= <-]. split; [discriminate |].
    rewrite <- Hfirst. apply span_not_quote_no_quote.
Qed.

Lemma match_filename_captured (s captured : string) :
  match_filename s = Some captured ->
  captured <> EmptyString /\ no_quote captured = true.
Proof.
  induction s as [| c s IH]; cbn [match_filename].
  - destruct (match_filename_here EmptyString) eqn:H; [| discriminate].
    intros [= <-]. apply (match_filename_here_captured _ _ H).
  - destruct (match_filename_here (String c s)) eqn:H.
    + intros [= <-]. apply (match_filename_here_captured _ _ H).
    + exact IH.
Qed.

Lemma all_hex_no_0x (key : string) : all_hex key = true -> strip_0x key = key.
Proof.
  intros H. unfold strip_0x.
  destruct key as [| c1 [| c2 key]];
    [reflexivity | simpl; rewrite andb_false_r; reflexivity |].
  simpl in H. apply andb_prop in H. destruct H as [_ H].
  apply andb_prop in H. destruct H as [H2 _].
  assert (Hx : (c2 =? "x")%char = false).
  { destruct (Ascii.eqb_spec c2 "x"%char) as [-> | _]; [discriminate H2 | reflexivity]. }
  simpl. rewrite Hx, andb_false_r. reflexivity.
Qed.

Section Payloads.

Context {R : Runtime}.

(** X16: [base64ToBytes] raises one error only, [Invalid base64 format], and
    only for a payload that the multibase decoder refuses and that, its
    data-URL prefix removed, fails strict validation.  What it returns is
    what the multibase decoder returns, or else, for a payload that passes
    strict validation, what [Buffer.from] decodes. *)
Theorem base64ToBytes_outcome (base64Str : string) :
  let cleanStr := strip_data_url base64Str in
  match base64ToBytes base64Str with
  | inl e =>
      e = new_Error "Invalid base64 format"
      /\ (exists refusal,
            multiformats_base64_decode (multibase_prefixed cleanStr) = inl refusal)
      /\ strict_base64 cleanStr = false
  | inr bytes =>
      multiformats_base64_decode (multibase_prefixed cleanStr) = inr bytes
      \/ ((exists refusal,
             multiformats_base64_decode (multibase_prefixed cleanStr) = inl refusal)
          /\ strict_base64 cleanStr = true
          /\ bytes = Buffer_from_base64 cleanStr)
  end.
Proof.
  cbv zeta. unfold base64ToBytes, decode_clean, strict_base64. cbv zeta.
  destruct (multiformats_base64_decode (multibase_prefixed (strip_data_url base64Str)))
    as [refusal | bytes]; [| left; reflexivity].
  destruct (Buffer_toString_base64 (Buffer_from_base64 (strip_data_url base64Str))
            =? strip_data_url base64Str) eqn:Hstrict.
  - right. eauto.
  - eauto.
Qed.

(** X17: a payload that begins with the letter [m] is handed to the
    multibase decoder as it is, so that its first letter is read as the
    multibase prefix and not as data: a payload [s] and the payload [m]
    followed by [s] decode to the same bytes whenever the multibase decoder
    takes [m] followed by [s]. *)
Theorem base64ToBytes_leading_m (s : string) (bytes : Bytes) :
  startsWith s "m" = false ->
  startsWith s "data:" = false ->
  multiformats_base64_decode ("m" ++ s) = inr bytes ->
  base64ToBytes s = inr bytes /\ base64ToBytes ("m" ++ s) = inr bytes.
Proof.
  intros Hm Hdata Hdecode. unfold base64ToBytes. cbv zeta.
  rewrite (strip_data_url_other s Hdata).
  rewrite (strip_data_url_other ("m" ++ s)) by reflexivity.
  unfold decode_clean, multibase_prefixed. cbv zeta.
  rewrite Hm.
  change (startsWith ("m" ++ s) "m") with true. cbn iota.
  rewrite Hdecode. split; reflexivity.
Qed.

(** X18: the removal of the data-URL prefix only ever removes a prefix: what
    is decoded is a tail of the payload, and the whole payload when it does
    not begin with [data:]. *)
Theorem strip_data_url_tail (s : string) :
  (exists removed, s = removed ++ strip_data_url s)
  /\ (startsWith s "data:" = false -> strip_data_url s = s).
Proof.
  split; [| apply strip_data_url_other].
  unfold strip_data_url.
  destruct (startsWith s "data:") eqn:Hdata; [| exists EmptyString; reflexivity].
  destruct (after_lazy_dots ";base64," (slice 5 s)) as [rest |] eqn:Hdots;
    [| exists EmptyString; reflexivity].
  destruct (after_lazy_dots_suffix _ _ _ Hdots) as [pre Hpre].
  exists ("data:" ++ pre).
  rewrite (startsWith_split s "data:" Hdata) at 1.
  change (String.length "data:") with 5. rewrite Hpre.
  rewrite append_assoc. reflexivity.
Qed.

(** X19: the file name [downloadFile] returns is never the empty string and
    never holds a double quote, whatever the [Content-Disposition] header
    is. *)
Theorem downloadFile_filename (net : Transport) (config : ApiConfig) (cid : string)
        (key : option string) (w w' : World) (result : DownloadResult) :
  run net (downloadFile config cid key) w = (inr result, w') ->
  filename result <> EmptyString /\ no_quote (filename result) = true.
Proof.
  unfold downloadFile, new_URL.
  destruct (URL_canParse (api_apiBaseUrl config ++ "/mefs/" ++ cid)); [| discriminate].
  cbn [bind]. simpl.
  match goal with
  | |- context [match ?answer with inl _ => _ | inr _ => _ end] =>
      destruct answer as [e | resp]
  end; simpl; [discriminate |].
  destruct (ok resp); simpl; [| discriminate].
  intros [= <- _]. cbn [filename].
  destruct (match_filename (or_empty (headers_get resp "content-disposition")))
    as [captured |] eqn:Hmatch.
  - apply (match_filename_captured _ _ Hmatch).
  - split; [discriminate | reflexivity].
Qed.

(** X20: the [0x] in front of a key makes no difference to the signer: for a
    key of hexadecimal digits, [signMessage] does the same with the key and
    with [0x] followed by the key, whatever the message. *)
Theorem signMessage_0x_prefix (net : Transport) (key message : string) (w : World) :
  test_hex key = true ->
  run net (signMessage (Some ("0x" ++ key)) message) w
  = run net (signMessage (Some key) message) w.
Proof.
  intros Hhex. unfold signMessage.
  assert (Hkey : truthy (Some key) = true).
  { destruct key; [discriminate Hhex | reflexivity]. }
  rewrite Hkey. change (truthy (Some ("0x" ++ key))) with true. cbn [negb].
  destruct (message =? EmptyString); [reflexivity |].
  cbn [the_string or_empty]. cbv zeta.
  change (strip_0x ("0x" ++ key)) with key.
  rewrite (all_hex_no_0x key (all_hex_of_test_hex key Hhex)). reflexivity.
Qed.

End Payloads.

Lemma base64ToBytes_leading_m_witness :
  base64ToBytes (R := Reference.platform) "dGVzdA==" = inr DecodingCases.test_bytes
  /\ base64ToBytes (R := Reference.platform) "mdGVzdA==" = inr DecodingCases.test_bytes.
Proof.
  apply (base64ToBytes_leading_m (R := Reference.platform) "dGVzdA=="
           DecodingCases.test_bytes); reflexivity.
Defined.

Lemma downloadFile_filename_witness :
  filename (downloaded StorageCases.empty_content_type) <> EmptyString
  /\ no_quote (filename (downloaded StorageCases.empty_content_type)) = true.
Proof.
  apply (downloadFile_filename (R := Reference.platform)
           (answering StorageCases.empty_content_type) StorageCases.api "cid" None
           Reference.empty_world
           (log_call (download_request (R := Reference.platform) StorageCases.api "cid" None) Reference.empty_world)
           (downloaded StorageCases.empty_content_type)).
  reflexivity.
Defined.

Lemma signMessage_0x_prefix_witness :
  run Reference.service
      (signMessage (R := Reference.platform) (Some ("0x" ++ Scenarios.hex_key)) "challenge")
      Reference.empty_world
  = run Reference.service
        (signMessage (R := Reference.platform) (Some Scenarios.hex_key) "challenge")
        Reference.empty_world.
Proof.
  apply (signMessage_0x_prefix (R := Reference.platform) Reference.service
           Scenarios.hex_key "challenge" Reference.empty_world).
  reflexivity.
Defined.

(** ** The configuration *)

Section Configuration.

Context {R : Runtime}.

Variable Wallet_address : Wallet -> string.
Variable parseInt10 : string -> option Z.

(** X21: [privateKeyToAddress] and the signer agree on keys.  When
    [privateKeyToAddress] returns an address, the key is a non-empty string
    of hexadecimal digits behind an optional [0x], the address is the one
    of the wallet of that key, and [signMessage] with that key fails on a
    non-empty message only if the signing of the wallet itself throws; when
    [privateKeyToAddress] throws, [signMessage] with that key fails on every
    message. *)
Theorem privateKeyToAddress_signer (net : Transport) (key : string) (w : World) :
  match privateKeyToAddress Wallet_address key with
  | inr address =>
      key <> EmptyString /\ test_hex (strip_0x key) = true
      /\ exists wallet,
           ethers_Wallet ("0x" ++ strip_0x key) = inr wallet
           /\ address = Wallet_address wallet
           /\ forall message, message <> EmptyString ->
                run net (signMessage (Some key) message) w
                = (match Wallet_signMessage wallet message with
                   | inr signature => inr signature
                   | inl e => inl (new_Error ("Failed to sign message: "
                                              ++ message_or_String e))
                   end, w)
  | inl _ => forall message, exists e, run net (signMessage (Some key) message) w = (inl e, w)
  end.
Proof.
  unfold privateKeyToAddress, signMessage. cbn [truthy the_string or_empty].
  destruct (String.eqb_spec key EmptyString) as [-> | Hkey].
  { intros message. eexists. reflexivity. }
  cbn [negb]. cbv zeta.
  destruct (test_hex (strip_0x key)) eqn:Hhex; cbn [negb].
  - destruct (ethers_Wallet ("0x" ++ strip_0x key)) as [e | wallet] eqn:Hwallet.
    + intros message. destruct (message =? EmptyString); eexists; reflexivity.
    + split; [exact Hkey |]. split; [reflexivity |].
      exists wallet. split; [reflexivity |]. split; [reflexivity |].
      intros message Hmsg. apply String.eqb_neq in Hmsg. rewrite Hmsg. simpl.
      destruct (Wallet_signMessage wallet message); reflexivity.
  - intros message. destruct (message =? EmptyString); eexists; reflexivity.
Qed.

(** X22: [privateKeyToAddress] gives the same for a key of hexadecimal
    digits and for [0x] followed by that key; it throws [Private key cannot
    be empty] on the empty string and [Invalid hex format for private key],
    as it is, on a non-empty key that is not hexadecimal behind an optional
    [0x]. *)
Theorem privateKeyToAddress_format (key : string) :
  (test_hex key = true ->
   privateKeyToAddress Wallet_address ("0x" ++ key) = privateKeyToAddress Wallet_address key)
  /\ privateKeyToAddress Wallet_address EmptyString
     = inl (new_Error "Private key cannot be empty")
  /\ (key <> EmptyString -> test_hex (strip_0x key) = false ->
      privateKeyToAddress Wallet_address key
      = inl (new_Error "Invalid hex format for private key")).
Proof.
  split; [| split; [reflexivity |]].
  - intros Hhex. unfold privateKeyToAddress.
    change (("0x" ++ key) =? EmptyString) with false. cbv zeta.
    change (strip_0x ("0x" ++ key)) with key.
    rewrite (all_hex_no_0x key (all_hex_of_test_hex key Hhex)).
    destruct key; [discriminate Hhex | reflexivity].
  - intros Hkey Hhex. unfold privateKeyToAddress.
    apply String.eqb_neq in Hkey. rewrite Hkey. cbv zeta. rewrite Hhex. reflexivity.
Qed.

(** X23: what [loadMefsConfig] makes of the environment.  [apiBaseUrl],
    [origin] and [chainId] fall back on their defaults for a variable that
    is unset or empty; the private key is taken over as it is, valid or
    not; there is an address exactly when the key is a non-empty string
    that [privateKeyToAddress] turns into a non-empty address; and nothing
    is written with [console.warn] exactly when the key is non-empty and
    [privateKeyToAddress] does not throw on it. *)
Theorem loadMefsConfig_outcome (env : Env) :
  let loaded := loadMefsConfig Wallet_address parseInt10 env in
  privateKey (fst loaded) = MEFS_PRIVATE_KEY env
  /\ (truthy (MEFS_API_BASE_URL env) = false ->
      apiBaseUrl (fst loaded) = "https://api.mefs.io:10000/produce")
  /\ (truthy (MEFS_ORIGIN env) = false -> origin (fst loaded) = "https://memo.io")
  /\ (truthy (MEFS_CHAIN_ID env) = false -> chainId (fst loaded) = Some 985%Z)
  /\ (forall value, MEFS_CHAIN_ID env = Some value -> value <> EmptyString ->
        chainId (fst loaded) = parseInt10 value)
  /\ (forall a, address (fst loaded) = Some a
                <-> exists key, MEFS_PRIVATE_KEY env = Some key /\ key <> EmptyString
                                /\ privateKeyToAddress Wallet_address key = inr a
                                /\ a <> EmptyString)
  /\ (snd loaded = []
      <-> exists key a, MEFS_PRIVATE_KEY env = Some key /\ key <> EmptyString
                        /\ privateKeyToAddress Wallet_address key = inr a).
Proof.
  cbv zeta. unfold loadMefsConfig. cbv zeta. cbn [fst snd privateKey apiBaseUrl origin chainId address].
  split; [reflexivity |].
  split; [intros ->; reflexivity |].
  split; [intros ->; reflexivity |].
  split; [intros ->; reflexivity |].
  split.
  { intros value -> Hvalue. apply String.eqb_neq in Hvalue. simpl. rewrite Hvalue. reflexivity. }
  destruct (MEFS_PRIVATE_KEY env) as [key |]; simpl.
  2:{ split.
      - intros a. split; [discriminate | intros (key & Hk & _); discriminate].
      - split; [discriminate | intros (key & a & Hk & _); discriminate]. }
  destruct (String.eqb_spec key EmptyString) as [-> | Hkey]; simpl.
  { split.
    - intros a. split; [discriminate | intros (key & [= <-] & Hk & _); contradiction].
    - split; [discriminate | intros (key & a & [= <-] & Hk & _); contradiction]. }
  destruct (privateKeyToAddress Wallet_address key) as [e | a0] eqn:Hconv; simpl.
  { split.
    - intros a. split; [discriminate |].
      intros (key' & [= <-] & _ & Hc & _). congruence.
    - split; [discriminate | intros (key' & a & [= <-] & _ & Hc); congruence]. }
  split.
  - intros a. unfold or_undefined. simpl.
    destruct (String.eqb_spec a0 EmptyString) as [-> | Ha0]; simpl.
    + split; [discriminate |].
      intros (key' & [= <-] & _ & Hc & Ha). rewrite Hconv in Hc.
      injection Hc as <-. contradiction.
    + split.
      * intros [= <-]. exists key. auto.
      * intros (key' & [= <-] & _ & Hc & _). rewrite Hconv in Hc. congruence.
  - split; [| reflexivity]. intros _. exists key, a0. auto.
Qed.

(** X24: a server started without [MEFS_PRIVATE_KEY] (unset or empty) is
    warned about it once, at load, and then answers every retrieve call made
    before any token pair is held with the error envelope of [Private key is
    required for authentication], sending no request. *)
Theorem loadMefsConfig_without_key (net : Transport) (env : Env) (input : RetrieveInput)
        (w : World) :
  truthy (MEFS_PRIVATE_KEY env) = false ->
  cachedTokens w = None ->
  let loaded := loadMefsConfig Wallet_address parseInt10 env in
  snd loaded = ["Warning: MEFS_PRIVATE_KEY not provided. Authentication may fail."]
  /\ address (fst loaded) = None
  /\ run net (retrieve_handler (fst loaded) input) w
     = (inr (retrieve_failure (fst loaded)
               (new_Error "Private key is required for authentication")),
        log_stderr "Failed to retrieve file:" w).
Proof.
  intros Hkey Hcache loaded.
  assert (Hloaded : privateKey (fst loaded) = MEFS_PRIVATE_KEY env) by reflexivity.
  split; [| split].
  - unfold loaded, loadMefsConfig. cbv zeta. cbn [snd]. rewrite Hkey. reflexivity.
  - unfold loaded, loadMefsConfig. cbv zeta. cbn [fst address]. rewrite Hkey. reflexivity.
  - rewrite run_retrieve_handler, run_getAuthTokens, Hcache.
    unfold authenticate. rewrite Hloaded, Hkey. reflexivity.
Qed.

(** X25: a [MEFS_PRIVATE_KEY] that is not hexadecimal is only warned about
    at load: the configuration keeps the key and has no address, and every
    [getAuthTokens] on an empty cache then sends a challenge request (on
    which [address] is not set: it is as the base URL has it) before it
    fails with [Failed to sign message: Invalid hex format for private
    key]. *)
Theorem loadMefsConfig_invalid_key (net : Transport) (env : Env) (key : string)
        (challenged : Response) (w : World) :
  MEFS_PRIVATE_KEY env = Some key ->
  key <> EmptyString ->
  test_hex (strip_0x key) = false ->
  let loaded := loadMefsConfig Wallet_address parseInt10 env in
  cachedTokens w = None ->
  URL_canParse (apiBaseUrl (fst loaded) ++ "/challenge") = true ->
  net (calls w ++ [challenge_request (fst loaded)])%list (challenge_request (fst loaded))
  = inr challenged ->
  ok challenged = true ->
  bodyText challenged <> EmptyString ->
  snd loaded
  = ["Warning: Failed to convert private key to address: Invalid hex format for private key"]
  /\ privateKey (fst loaded) = Some key
  /\ address (fst loaded) = None
  /\ (forall v, In ("address", v) (challenge_params (fst loaded))
                <-> In ("address", v)
                       (URL_searchParams (apiBaseUrl (fst loaded) ++ "/challenge")))
  /\ run net (getAuthTokens (fst loaded)) w
     = (inl (new_Error "Failed to sign message: Invalid hex format for private key"),
        log_call (challenge_request (fst loaded)) w).
Proof.
  intros Henv Hkey Hhex loaded Hcache Hurl Hc Hok Hbody.
  assert (Hconv : privateKeyToAddress Wallet_address key
                  = inl (new_Error "Invalid hex format for private key")).
  { unfold privateKeyToAddress. pose proof Hkey as Hk. apply String.eqb_neq in Hk.
    rewrite Hk. cbv zeta. rewrite Hhex. reflexivity. }
  assert (Htruthy : truthy (Some key) = true) by (apply truthy_key, Hkey).
  assert (Hwarn : snd loaded
                  = ["Warning: Failed to convert private key to address: Invalid hex format for private key"]).
  { unfold loaded, loadMefsConfig. cbv zeta. cbn [snd]. rewrite Henv, Htruthy.
    cbn [negb the_string or_empty]. rewrite Hconv. reflexivity. }
  assert (Haddress : address (fst loaded) = None).
  { unfold loaded, loadMefsConfig. cbv zeta. cbn [fst address]. rewrite Henv, Htruthy.
    cbn [the_string or_empty]. rewrite Hconv. reflexivity. }
  assert (Hprivate : privateKey (fst loaded) = Some key) by exact Henv.
  split; [exact Hwarn |]. split; [exact Hprivate |]. split; [exact Haddress |]. split.
  - intros v. unfold challenge_params. rewrite Haddress. cbn [truthy]. cbv zeta.
    destruct (chainId (fst loaded)) as [n |]; [| reflexivity].
    destruct (n =? 0)%Z; [reflexivity |].
    apply searchParams_set_other. discriminate.
  - rewrite run_getAuthTokens, Hcache.
    rewrite run_authenticate by (rewrite Hprivate; exact Htruthy).
    rewrite (run_getChallenge net (fst loaded) w Hurl), Hc, Hok, Hprivate.
    rewrite (run_signMessage_bad_hex net key _ _ Hkey Hbody Hhex). reflexivity.
Qed.

End Configuration.

Lemma privateKeyToAddress_format_witness :
  privateKeyToAddress (R := Reference.platform) Scenarios.address_of
                      ("0x" ++ Scenarios.hex_key)
  = privateKeyToAddress (R := Reference.platform) Scenarios.address_of Scenarios.hex_key
  /\ privateKeyToAddress (R := Reference.platform) Scenarios.address_of "invalid-key"
     = inl (new_Error "Invalid hex format for private key").
Proof.
  split.
  - apply (proj1 (privateKeyToAddress_format (R := Reference.platform)
                    Scenarios.address_of Scenarios.hex_key)).
    reflexivity.
  - apply (proj2 (proj2 (privateKeyToAddress_format (R := Reference.platform)
                           Scenarios.address_of "invalid-key")));
      [discriminate | reflexivity].
Defined.

Lemma loadMefsConfig_outcome_witness :
  chainId (fst (loadMefsConfig (R := Reference.platform) Scenarios.address_of
                               Scenarios.parse_digits Scenarios.full_env))
  = Some 137%Z
  /\ address (fst (loadMefsConfig (R := Reference.platform) Scenarios.address_of
                                  Scenarios.parse_digits Scenarios.full_env))
     = Some "0xf39Fd6e51aad88F6F4ce6aB8827279cffFb92266"
  /\ snd (loadMefsConfig (R := Reference.platform) Scenarios.address_of
                         Scenarios.parse_digits Scenarios.full_env) = [].
Proof.
  destruct (loadMefsConfig_outcome (R := Reference.platform) Scenarios.address_of
              Scenarios.parse_digits Scenarios.full_env)
    as (_ & _ & _ & _ & Hchain & Haddress & Hwarn).
  split; [| split].
  - apply (Hchain "137"); [reflexivity | discriminate].
  - apply Haddress. exists ("0x" ++ Scenarios.hex_key).
    repeat split; try discriminate.
  - apply Hwarn. exists ("0x" ++ Scenarios.hex_key), "0xf39Fd6e51aad88F6F4ce6aB8827279cffFb92266".
    repeat split. discriminate.
Defined.

Lemma loadMefsConfig_without_key_witness :
  run Reference.service
      (retrieve_handler (R := Reference.platform)
         (fst (loadMefsConfig (R := Reference.platform) Scenarios.address_of
                              Scenarios.parse_digits Scenarios.no_key_env))
         Scenarios.retrieve_report)
      Reference.empty_world
  = (inr (retrieve_failure (R := Reference.platform)
            (fst (loadMefsConfig (R := Reference.platform) Scenarios.address_of
                                 Scenarios.parse_digits Scenarios.no_key_env))
            (new_Error "Private key is required for authentication")),
     log_stderr "Failed to retrieve file:" Reference.empty_world).
Proof.
  apply (loadMefsConfig_without_key (R := Reference.platform) Scenarios.address_of
           Scenarios.parse_digits Reference.service Scenarios.no_key_env
           Scenarios.retrieve_report Reference.empty_world); reflexivity.
Defined.

Lemma loadMefsConfig_invalid_key_witness :
  run Reference.service
      (getAuthTokens (R := Reference.platform)
         (fst (loadMefsConfig (R := Reference.platform) Scenarios.address_of
                              Scenarios.parse_digits Scenarios.bad_key_env)))
      Reference.empty_world
  = (inl (new_Error "Failed to sign message: Invalid hex format for private key"),
     log_call (challenge_request (R := Reference.platform)
                 (fst (loadMefsConfig (R := Reference.platform) Scenarios.address_of
                                      Scenarios.parse_digits Scenarios.bad_key_env)))
              Reference.empty_world).
Proof.
  apply (loadMefsConfig_invalid_key (R := Reference.platform) Scenarios.address_of
           Scenarios.parse_digits Reference.service Scenarios.bad_key_env "invalid-key"
           (Reference.response_ok "challenge") Reference.empty_world);
    try reflexivity; discriminate.
Defined.

(** ** The cache under calls in flight *)

Lemma caches_result_bind (p : Async AuthTokens) :
  cache_free p ->
  caches_result (tokens <- p ;; WriteCache (Some tokens) (Ret tokens)).
Proof.
  intros Hp. induction Hp; simpl; constructor; auto.
Qed.

Lemma advance_caches_result (p : Async AuthTokens) (w : World) :
  caches_result p ->
  task_caches_result (fst (advance p w))
  /\ ((exists tokens, fst (advance p w) = Settled (inr tokens)
                      /\ cachedTokens (snd (advance p w)) = Some tokens)
      \/ ((forall tokens, fst (advance p w) <> Settled (inr tokens))
          /\ cachedTokens (snd (advance p w)) = cachedTokens w)).
Proof.
  intros Hp. revert w.
  induction Hp as [e | tokens | r k Hk _ | k Hk _ | l k _ IH]; intros w; simpl.
  - split; [exact I |]. right. split; [discriminate | reflexivity].
  - split; [exact I |]. left. exists tokens. auto.
  - split; [exact Hk |]. right. split; [discriminate | reflexivity].
  - split; [exact Hk |]. right. split; [discriminate | reflexivity].
  - apply (IH (log_stderr l w)).
Qed.

Lemma advance_await_pending {A : Type} (p : Async A) (w : World) :
  pending (fst (advance (await p) w)).
Proof.
  rewrite advance_await.
  destruct (advance p w) as [[r | r k | k] w']; exact I.
Qed.

Lemma advance_bind_pending {A B : Type} (p : Async A) (f : A -> Async B) (w : World) :
  pending (fst (advance p w)) -> pending (fst (advance (bind p f) w)).
Proof.
  rewrite advance_bind.
  destruct (advance p w) as [[r | r k | k] w']; simpl; [contradiction | auto | auto].
Qed.

Lemma pending_not_resolved {A : Type} (t : Task A) (a : A) :
  pending t -> t <> Settled (inr a).
Proof. intros H ->. exact H. Qed.

(** Resuming the call at position [i] touches that call and no other. *)
Lemma resume_nth_split {A : Type} (net : Transport) (i : nat) (ts : list (Task A))
      (w : World) :
  resume_nth net i ts w = (ts, w)
  \/ exists before t after,
       ts = (before ++ t :: after)%list
       /\ resume_nth net i ts w
          = ((before ++ fst (resume net t w) :: after)%list, snd (resume net t w)).
Proof.
  revert i. induction ts as [| t ts IH]; intros i; [left; destruct i; reflexivity |].
  destruct i as [| i]; simpl.
  - right. exists [], t, ts. destruct (resume net t w); auto.
  - destruct (IH i) as [Hsame | (before & t' & after & -> & Hstep)].
    + left. rewrite Hsame. reflexivity.
    + right. exists (t :: before), t', after. rewrite Hstep. auto.
Qed.

Section CacheInFlight.

Context {R : Runtime}.

(** A call that finds the cache empty is suspended in its first turn, leaves
    the cache empty, and caches what it returns. *)
Lemma getAuthTokens_suspends (config : MefsConfig) (w : World) :
  cachedTokens w = None ->
  task_caches_result (fst (advance (getAuthTokens config) w))
  /\ pending (fst (advance (getAuthTokens config) w))
  /\ cachedTokens (snd (advance (getAuthTokens config) w)) = None.
Proof.
  intros Hcache. unfold getAuthTokens. cbn [advance]. rewrite Hcache.
  pose proof (advance_caches_result _ w
                (caches_result_bind _ (cache_free_await _ (cache_free_authenticate config))))
    as (Htask & Hcases).
  pose proof (advance_bind_pending (await (authenticate config))
                (fun tokens => WriteCache (Some tokens) (Ret tokens)) w
                (advance_await_pending (authenticate config) w)) as Hpending.
  split; [exact Htask |]. split; [exact Hpending |].
  destruct Hcases as [(tokens & Ht & _) | (_ & Hsame)].
  - exfalso. exact (pending_not_resolved _ tokens Hpending Ht).
  - rewrite Hsame. exact Hcache.
Qed.

Lemma start_all_suspended (configs : list MefsConfig) (w : World) :
  cachedTokens w = None ->
  Forall task_caches_result (fst (start_all (map getAuthTokens configs) w))
  /\ Forall pending (fst (start_all (map getAuthTokens configs) w))
  /\ cachedTokens (snd (start_all (map getAuthTokens configs) w)) = None.
Proof.
  revert w. induction configs as [| config configs IH]; intros w Hcache;
    cbn [map start_all].
  - simpl. auto.
  - destruct (getAuthTokens_suspends config w Hcache) as (H1 & H2 & H3).
    destruct (advance (getAuthTokens config) w) as [t w1]. cbn [fst snd] in *.
    destruct (IH w1 H3) as (H4 & H5 & H6).
    destruct (start_all (map getAuthTokens configs) w1) as [ts w2]. cbn [fst snd] in *.
    auto.
Qed.

Lemma resume_cache (net : Transport) (t : Task AuthTokens) (w : World) :
  task_caches_result t ->
  task_caches_result (fst (resume net t w))
  /\ ((fst (resume net t w) = t /\ snd (resume net t w) = w)
      \/ (pending t
          /\ ((exists tokens, fst (resume net t w) = Settled (inr tokens)
                              /\ cachedTokens (snd (resume net t w)) = Some tokens)
              \/ ((forall tokens, fst (resume net t w) <> Settled (inr tokens))
                  /\ cachedTokens (snd (resume net t w)) = cachedTokens w)))).
Proof.
  destruct t as [r | r k | k]; simpl; intros Ht.
  - split; [exact I |]. left. auto.
  - destruct (advance_caches_result _ w (Ht (net (calls w) r))) as (H1 & H2).
    split; [exact H1 |]. right. split; [exact I | exact H2].
  - destruct (advance_caches_result _ w Ht) as (H1 & H2).
    split; [exact H1 |]. right. split; [exact I | exact H2].
Qed.

Lemma resume_nth_cache (net : Transport) (i : nat) (ts : list (Task AuthTokens))
      (w : World) :
  Forall task_caches_result ts -> cache_of_a_caller ts w ->
  Forall task_caches_result (fst (resume_nth net i ts w))
  /\ cache_of_a_caller (fst (resume_nth net i ts w)) (snd (resume_nth net i ts w)).
Proof.
  intros Hts Hcache.
  destruct (resume_nth_split net i ts w) as [-> | (before & t & after & -> & ->)];
    [auto |].
  cbn [fst snd].
  apply Forall_app in Hts. destruct Hts as [Hbefore Hts].
  inversion Hts as [| ? ? Ht Hafter]; subst.
  destruct (resume_cache net t w Ht) as (Ht' & [[Hsame Hw] | (Hpending & Hcases)]).
  - split.
    + apply Forall_app. split; [exact Hbefore | constructor; assumption].
    + rewrite Hsame, Hw. exact Hcache.
  - split.
    + apply Forall_app. split; [exact Hbefore | constructor; assumption].
    + unfold cache_of_a_caller in *.
      destruct Hcases as [(tokens & Hsettled & Hwritten) | (Hunresolved & Hsame)].
      * rewrite Hwritten, Hsettled. apply in_or_app. right. left. reflexivity.
      * rewrite Hsame.
        destruct (cachedTokens w) as [tokens |].
        -- apply in_app_or in Hcache. apply in_or_app.
           destruct Hcache as [Hin | [Hin | Hin]]; [left; exact Hin | | right; right; exact Hin].
           exfalso. exact (pending_not_resolved _ tokens Hpending Hin).
        -- intros tokens Hin. apply in_app_or in Hin.
           destruct Hin as [Hin | [Hin | Hin]].
           ++ apply (Hcache tokens). apply in_or_app. left. exact Hin.
           ++ exact (Hunresolved tokens Hin).
           ++ apply (Hcache tokens). apply in_or_app. right. right. exact Hin.
Qed.

Lemma event_loop_cache (net : Transport) (schedule : list nat) (ts : list (Task AuthTokens))
      (w : World) :
  Forall task_caches_result ts -> cache_of_a_caller ts w ->
  cache_of_a_caller (fst (event_loop net schedule ts w)) (snd (event_loop net schedule ts w)).
Proof.
  revert ts w. induction schedule as [| i rest IH]; intros ts w Hts Hcache; simpl.
  - exact Hcache.
  - destruct (resume_nth_cache net i ts w Hts Hcache) as (Hts' & Hcache').
    destruct (resume_nth net i ts w) as [ts' w']. apply IH; assumption.
Qed.

(** X26: the cache under calls in flight.  However many calls of
    [getAuthTokens] are made in one turn against an empty cache, with
    whatever configurations, and however the event loop resumes them: as
    long as none of them has returned the cache is empty, and from then on
    it holds a pair that one of them has returned. *)
Theorem getAuthTokens_cache_in_flight (net : Transport) (configs : list MefsConfig)
        (schedule : list nat) (w : World) :
  cachedTokens w = None ->
  let started := start_all (map getAuthTokens configs) w in
  let finished := event_loop net schedule (fst started) (snd started) in
  match cachedTokens (snd finished) with
  | Some tokens => In (Settled (inr tokens)) (fst finished)
  | None => forall tokens, ~ In (Settled (inr tokens)) (fst finished)
  end.
Proof.
  intros Hcache started finished.
  destruct (start_all_suspended configs w Hcache) as (Htasks & Hpending & Hempty).
  fold started in Htasks, Hpending, Hempty.
  apply (event_loop_cache net schedule (fst started) (snd started) Htasks).
  unfold cache_of_a_caller. rewrite Hempty.
  intros tokens Hin.
  rewrite Forall_forall in Hpending. exact (Hpending _ Hin).
Qed.

(** X27: against a held token pair every call returns that pair in the turn
    it is made in: any number of calls made together, with whatever
    configurations, are all settled at once with the held pair, and the
    world is as it was (no request, no write). *)
Theorem getAuthTokens_all_hit (configs : list MefsConfig) (w : World) (held : AuthTokens) :
  cachedTokens w = Some held ->
  start_all (map getAuthTokens configs) w
  = (map (fun _ => Settled (inr held)) configs, w).
Proof.
  intros Hheld. induction configs as [| config configs IH]; [reflexivity |].
  cbn [map start_all]. unfold getAuthTokens at 1. cbn [advance]. rewrite Hheld.
  cbn [advance]. rewrite IH. reflexivity.
Qed.

End CacheInFlight.

Lemma getAuthTokens_cache_in_flight_witness :
  In (Settled (inr {| accessToken := "access-2"; refreshToken := "refresh-2" |}))
     (fst InFlightCases.finished)
  /\ cachedTokens (snd InFlightCases.finished)
     = Some {| accessToken := "access-2"; refreshToken := "refresh-2" |}.
Proof.
  split; [| reflexivity].
  exact (getAuthTokens_cache_in_flight (R := Reference.platform) Reference.service
           [Reference.config; Reference.config] InFlightCases.first_then_second
           Reference.empty_world eq_refl).
Defined.

Lemma getAuthTokens_all_hit_witness :
  start_all [getAuthTokens (R := Reference.platform) Reference.config;
             getAuthTokens (R := Reference.platform) Cases.keyless]
            Cases.authenticated_world
  = ([Settled (inr Cases.held); Settled (inr Cases.held)], Cases.authenticated_world).
Proof.
  exact (getAuthTokens_all_hit (R := Reference.platform)
           [Reference.config; Cases.keyless] Cases.authenticated_world Cases.held eq_refl).
Defined.

Lemma strip_data_url_tail_witness :
  strip_data_url "dGVzdA==" = "dGVzdA=="
  /\ exists removed,
       "data:text/plain;base64,dGVzdA=="
       = removed ++ strip_data_url "data:text/plain;base64,dGVzdA==".
Proof.
  split.
  - apply (proj2 (strip_data_url_tail "dGVzdA==")). reflexivity.
  - exact (proj1 (strip_data_url_tail "data:text/plain;base64,dGVzdA==")).
Defined.

Lemma privateKeyToAddress_signer_witness :
  run Reference.service
      (signMessage (R := Reference.platform) (Some Scenarios.hex_key) "challenge")
      Reference.empty_world
  = (inr "0xsigned", Reference.empty_world).
Proof.
  pose proof (privateKeyToAddress_signer (R := Reference.platform) Scenarios.address_of
                Reference.service Scenarios.hex_key Reference.empty_world) as H.
  change (privateKeyToAddress (R := Reference.platform) Scenarios.address_of
                              Scenarios.hex_key)
    with (@inr Thrown string "0xf39Fd6e51aad88F6F4ce6aB8827279cffFb92266") in H.
  cbv beta iota in H.
  destruct H as (_ & _ & wallet & Hwallet & _ & Hsign).
  rewrite (Hsign "challenge") by discriminate.
  reflexivity.
Defined.

(** ** One call behind another *)

Section Sessions.

Context {R : Runtime}.

Lemma getAuthTokens_holds (net : Transport) (config : MefsConfig) (w w1 : World)
      (tokens : AuthTokens) :
  run net (getAuthTokens config) w = (inr tokens, w1) -> cachedTokens w1 = Some tokens.
Proof.
  rewrite run_getAuthTokens.
  destruct (cachedTokens w) as [held |] eqn:Hcache.
  - intros [= <- <-]. exact Hcache.
  - destruct (run net (authenticate config) w) as [[e | tokens'] w']; [discriminate |].
    intros [= <- <-]. reflexivity.
Qed.

Lemma upload_failure_flagged (e : Thrown) : map error (content (upload_failure e)) = [Some true].
Proof. destruct e; reflexivity. Qed.

(** X28: a handler that answers without the error flag leaves a token pair
    held, so that the calls that follow a successful one find a pair in the
    cache. *)
Theorem handler_success_holds_tokens (net : Transport) (mefsConfig : MefsConfig)
        (upload : UploadInput) (retrieve : RetrieveInput) (w w1 : World)
        (result : ToolResult) :
  (run net (upload_handler mefsConfig upload) w = (inr result, w1)
   \/ run net (retrieve_handler mefsConfig retrieve) w = (inr result, w1)) ->
  map error (content result) = [None] ->
  exists held, cachedTokens w1 = Some held.
Proof.
  intros [Hrun | Hrun] Hflag.
  - rewrite run_upload_handler in Hrun.
    destruct (base64ToBytes (in_file upload)) as [e | fileBytes].
    { injection Hrun as <- _. rewrite upload_failure_flagged in Hflag. discriminate. }
    destruct (run net (getAuthTokens mefsConfig) w) as [[e | tokens] w0] eqn:Hauth.
    { injection Hrun as <- _. rewrite upload_failure_flagged in Hflag. discriminate. }
    pose proof (getAuthTokens_holds _ _ _ _ _ Hauth) as Hheld.
    pose proof (run_cache_free net _ w0
                  (cache_free_uploadFile (api_of mefsConfig tokens) fileBytes (in_name upload)
                     (handler_options upload))) as Hfree.
    destruct (run net (uploadFile _ _ _ _) w0) as [[e | uploaded] w2].
    { injection Hrun as <- _. rewrite upload_failure_flagged in Hflag. discriminate. }
    injection Hrun as _ <-. exists tokens. cbn [snd] in Hfree. congruence.
  - rewrite run_retrieve_handler in Hrun.
    destruct (run net (getAuthTokens mefsConfig) w) as [[e | tokens] w0] eqn:Hauth.
    { injection Hrun as <- _. discriminate Hflag. }
    pose proof (getAuthTokens_holds _ _ _ _ _ Hauth) as Hheld.
    pose proof (run_cache_free net _ w0
                  (cache_free_downloadFile (api_of mefsConfig tokens) (in_cid retrieve)
                     (in_dkey retrieve))) as Hfree.
    destruct (run net (downloadFile _ _ _) w0) as [[e | downloaded'] w2].
    { injection Hrun as <- _. discriminate Hflag. }
    injection Hrun as _ <-. exists tokens. cbn [snd] in Hfree. congruence.
Qed.

End Sessions.

Lemma handler_success_holds_tokens_witness :
  exists held,
    cachedTokens (snd (run Reference.service
                           (upload_handler (R := Reference.platform) Reference.config
                                           Scenarios.upload_test)
                           Reference.empty_world)) = Some held.
Proof.
  apply (handler_success_holds_tokens (R := Reference.platform) Reference.service
           Reference.config Scenarios.upload_test Scenarios.retrieve_report
           Reference.empty_world _
           (upload_success (R := Reference.platform) Scenarios.upload_test
                           {| Mid := "stored" |} DecodingCases.test_bytes)).
  - left. reflexivity.
  - reflexivity.
Defined.

(** ** The order of the requests of the upload handler *)

Section UploadOrder.

Context {R : Runtime}.

(** Requests are only ever added behind those already sent. *)
Lemma run_calls_extend {A : Type} (net : Transport) (p : Async A) :
  forall w, exists more, calls (snd (run net p w)) = (calls w ++ more)%list.
Proof.
  induction p as [a | e | k IH | c k IH | r k IH | k IH | l k IH]; intros w; cbn [run].
  - exists []. symmetry. apply app_nil_r.
  - exists []. symmetry. apply app_nil_r.
  - apply IH.
  - destruct (IH (set_cache c w)) as [more Hmore]. exists more. exact Hmore.
  - destruct (IH (net (calls (log_call r w)) r) (log_call r w)) as [more Hmore].
    exists (r :: more). rewrite Hmore. cbn [log_call calls].
    rewrite <- app_assoc. reflexivity.
  - apply IH.
  - destruct (IH (log_stderr l w)) as [more Hmore]. exists more. exact Hmore.
Qed.

(** X29: with a token pair held and a payload that decodes, the upload
    handler sends one request and no other: the upload request with the
    held access token.  It does not authenticate again and does not try a
    second time; a response that is not [ok] comes back as the error
    envelope of [Failed to upload file: ...], and what [fetch] throws as the
    error envelope of that. *)
Theorem upload_handler_on_held_tokens (net : Transport) (mefsConfig : MefsConfig)
        (input : UploadInput) (fileBytes : Bytes) (w : World) (held : AuthTokens) :
  base64ToBytes (in_file input) = inr fileBytes ->
  cachedTokens w = Some held ->
  URL_canParse (apiBaseUrl mefsConfig ++ "/mefs/") = true ->
  let request := upload_request (api_of mefsConfig held) fileBytes (in_name input)
                                (handler_options input) in
  calls (snd (run net (upload_handler mefsConfig input) w)) = (calls w ++ [request])%list
  /\ (forall response,
        net (calls w ++ [request])%list request = inr response -> ok response = false ->
        run net (upload_handler mefsConfig input) w
        = (inr (upload_failure (upload_failed response)),
           log_stderr "Failed to upload file:" (log_call request w)))
  /\ (forall e,
        net (calls w ++ [request])%list request = inl e ->
        run net (upload_handler mefsConfig input) w
        = (inr (upload_failure e),
           log_stderr "Failed to upload file:" (log_call request w))).
Proof.
  intros Hdecode Hheld Hurl request.
  rewrite run_upload_handler, Hdecode, run_getAuthTokens, Hheld.
  rewrite (run_uploadFile net (api_of mefsConfig held) _ _ _ w Hurl). fold request.
  split; [| split].
  - destruct (net (calls w ++ [request])%list request) as [e | resp]; [reflexivity |].
    destruct (ok resp); [| reflexivity].
    destruct (json_UploadResult (bodyText resp)); reflexivity.
  - intros response -> ->. reflexivity.
  - intros e ->. reflexivity.
Qed.

(** X30: the handler decodes the payload once more, behind the schema, and
    for an input the schema accepts this cannot fail: with no token pair
    held and a private key configured, the first request of the upload
    handler on an accepted input is the challenge request, whatever the
    service answers. *)
Theorem upload_accepted_input_authenticates (net : Transport) (mefsConfig : MefsConfig)
        (input : UploadInput) (w : World) :
  uploadInputSchema_accepts input = true ->
  cachedTokens w = None ->
  truthy (privateKey mefsConfig) = true ->
  URL_canParse (apiBaseUrl mefsConfig ++ "/challenge") = true ->
  (exists fileBytes, base64ToBytes (in_file input) = inr fileBytes)
  /\ exists more,
       calls (snd (run net (upload_handler mefsConfig input) w))
       = (calls w ++ challenge_request mefsConfig :: more)%list.
Proof.
  intros Haccepts Hcache Hkey Hurl.
  unfold uploadInputSchema_accepts in Haccepts.
  apply andb_prop in Haccepts. destruct Haccepts as [Haccepts _].
  apply andb_prop in Haccepts. destruct Haccepts as [_ Hdecodes].
  destruct (base64ToBytes (in_file input)) as [e | fileBytes] eqn:Hdecode; [discriminate |].
  split; [exists fileBytes; reflexivity |].
  assert (Hauth : exists more,
             calls (snd (run net (getAuthTokens mefsConfig) w))
             = (calls w ++ challenge_request mefsConfig :: more)%list).
  { rewrite run_getAuthTokens, Hcache, (run_authenticate net mefsConfig w Hkey).
    pose proof (f_equal snd (run_getChallenge net mefsConfig w Hurl)) as Hchallenge.
    destruct (run net (getChallenge mefsConfig) w) as [[e | message] w1];
      cbn [snd] in Hchallenge.
    - exists []. cbn [snd]. rewrite Hchallenge. reflexivity.
    - assert (Hw1 : calls w1 = (calls w ++ [challenge_request mefsConfig])%list)
        by (rewrite Hchallenge; reflexivity).
      destruct (run_calls_extend net (signMessage (privateKey mefsConfig) message) w1)
        as [signed Hsigned].
      destruct (run net (signMessage (privateKey mefsConfig) message) w1)
        as [[e | signature] w2]; cbn [snd] in Hsigned.
      + exists signed. cbn [snd]. rewrite Hsigned, Hw1, <- app_assoc. reflexivity.
      + destruct (run_calls_extend net (login mefsConfig message signature) w2)
          as [logged Hlogged].
        destruct (run net (login mefsConfig message signature) w2) as [[e | lr] w3];
          cbn [snd] in Hlogged;
          exists (signed ++ logged)%list; cbn [snd set_cache calls];
          rewrite Hlogged, Hsigned, Hw1, <- !app_assoc; reflexivity. }
  destruct Hauth as [sent Hsent].
  rewrite run_upload_handler, Hdecode.
  destruct (run net (getAuthTokens mefsConfig) w) as [[e | tokens] w1]; cbn [snd] in Hsent.
  - exists sent. exact Hsent.
  - destruct (run_calls_extend net
                (uploadFile (api_of mefsConfig tokens) fileBytes (in_name input)
                            (handler_options input)) w1) as [uploaded Huploaded].
    destruct (run net (uploadFile _ _ _ _) w1) as [[e | result] w2]; cbn [snd] in Huploaded;
      exists (sent ++ uploaded)%list; cbn [snd log_stderr calls];
      rewrite Huploaded, Hsent, <- app_assoc; reflexivity.
Qed.

End UploadOrder.

Lemma upload_handler_on_held_tokens_witness :
  run Scenarios.refusing
      (upload_handler (R := Reference.platform) Reference.config Scenarios.upload_test)
      Cases.authenticated_world
  = (inr (upload_failure (R := Reference.platform) (upload_failed Scenarios.unauthorized)),
     log_stderr "Failed to upload file:"
       (log_call (upload_request (R := Reference.platform) (api_of Reference.config Cases.held)
                                 DecodingCases.test_bytes "test.txt"
                                 (handler_options Scenarios.upload_test))
                 Cases.authenticated_world)).
Proof.
  destruct (upload_handler_on_held_tokens (R := Reference.platform) Scenarios.refusing
              Reference.config Scenarios.upload_test DecodingCases.test_bytes
              Cases.authenticated_world Cases.held eq_refl eq_refl eq_refl)
    as (_ & Hrefused & _).
  apply (Hrefused Scenarios.unauthorized); reflexivity.
Defined.

Lemma upload_accepted_input_authenticates_witness :
  exists more,
    calls (snd (run Scenarios.refusing
                    (upload_handler (R := Reference.platform) Reference.config
                                    Scenarios.upload_test)
                    Reference.empty_world))
    = challenge_request (R := Reference.platform) Reference.config :: more.
Proof.
  apply (upload_accepted_input_authenticates (R := Reference.platform) Scenarios.refusing
           Reference.config Scenarios.upload_test Reference.empty_world
           eq_refl eq_refl eq_refl eq_refl).
Defined.

(** ** Payloads given as data URLs *)

Section DataUrl.

Context {R : Runtime}.


End DataUrl.


